(** * lib/product.js: the derived-state cache of [Product]

    A shallow embedding of the class [Product] of [lib/product.js]: its
    instance properties, the private cache [#_cache], and the calls it makes
    into its collaborators (configuration, cache storage, plugin discovery,
    component resolution, hook execution).  Collaborators whose code lives in
    other files are either parameters (class [Externals]) or modelled from
    the specification; each such definition says so. *)

From Stdlib Require Import Ascii String.
From stdpp Require Import base strings list gmap.

Open Scope string_scope.
Open Scope list_scope.

Local Set Warnings "-register-all".

(** ** JavaScript values *)

(** The JSON-shaped values plugin manifests and configuration are made of.
    [JUndef] stands for the values [JSON.stringify] drops ([undefined],
    functions).  An object is its list of properties in property order.
    Numbers are kept as integers; nothing here computes with them. *)
Inductive jsval :=
| JUndef
| JNull
| JBool (b : bool)
| JNum (n : Z)
| JStr (s : string)
| JArr (xs : list jsval)
| JObj (fs : list (string * jsval)).

Abbreviation jsobj := (list (string * jsval)).

(** A leaf is a defined value that is neither an array nor an object. *)
Definition is_leaf (v : jsval) : bool :=
  match v with
  | JNull | JBool _ | JNum _ | JStr _ => true
  | JUndef | JArr _ | JObj _ => false
  end.

(** Truthiness of a value read from a possibly missing property. *)
Definition truthy (v : option jsval) : bool :=
  match v with
  | None | Some JUndef | Some JNull | Some (JBool false) => false
  | Some (JNum n) => negb (Z.eqb n 0)
  | Some (JStr s) => negb (String.eqb s "")
  | Some _ => true
  end.

(** ** Objects as ordered property lists *)

Section Objects.
Context {A : Type}.

(** [o[k]] on own properties. *)
Fixpoint obj_get (k : string) (o : list (string * A)) : option A :=
  match o with
  | [] => None
  | (k', v) :: o' => if String.eqb k k' then Some v else obj_get k o'
  end.

(** [o[k] = v]: an existing property keeps its position, a new one goes
    last. *)
Fixpoint obj_set (k : string) (v : A) (o : list (string * A)) : list (string * A) :=
  match o with
  | [] => [(k, v)]
  | (k', v') :: o' =>
      if String.eqb k k' then (k, v) :: o' else (k', v') :: obj_set k v o'
  end.

(** [delete o[k]]. *)
Fixpoint obj_delete (k : string) (o : list (string * A)) : list (string * A) :=
  match o with
  | [] => []
  | (k', v) :: o' =>
      if String.eqb k k' then obj_delete k o' else (k', v) :: obj_delete k o'
  end.

Definition obj_keys (o : list (string * A)) : list string := map fst o.
End Objects.

(** [{...a, ...b}]. *)
Definition obj_spread {A : Type} (a b : list (string * A)) : list (string * A) :=
  fold_left (fun acc kv => obj_set (fst kv) (snd kv) acc) b a.

(** ** [JSON.parse(JSON.stringify(x))] *)

(** Properties holding [undefined] are dropped, array slots holding
    [undefined] become [null]. *)
Fixpoint json_clone (v : jsval) : jsval :=
  match v with
  | JArr xs =>
      JArr (map (fun x => match x with JUndef => JNull | _ => json_clone x end) xs)
  | JObj fs =>
      JObj ((fix go (fs : jsobj) : jsobj :=
               match fs with
               | [] => []
               | (k, x) :: fs' =>
                   match x with
                   | JUndef => go fs'
                   | _ => (k, json_clone x) :: go fs'
                   end
               end) fs)
  | _ => v
  end.

Definition clone_fields : jsobj -> jsobj :=
  fix go (fs : jsobj) : jsobj :=
    match fs with
    | [] => []
    | (k, x) :: fs' =>
        match x with
        | JUndef => go fs'
        | _ => (k, json_clone x) :: go fs'
        end
    end.

(** Walking a value along a path of property names. *)
Fixpoint lookup_path (path : list string) (v : jsval) : option jsval :=
  match path with
  | [] => match v with JUndef => None | _ => Some v end
  | k :: path' =>
      match v with
      | JObj fs =>
          match obj_get k fs with
          | Some v' => lookup_path path' v'
          | None => None
          end
      | _ => None
      end
  end.

(** ** [Config] *)

(** The class [Config] is defined in [lib/config.js], outside
    [lib/product.js]; what follows of it is modelled from the specification. *)

(** Modelled from the spec: a store of a [Config], inserted as a literal with
    no further decoding (spec 4.2). *)
Inductive Store := Literal (store : jsobj).

Definition store_data (s : Store) : jsobj := let 'Literal o := s in o.

(** Modelled from the spec: a [Config] is an identifier and an ordered
    mapping from store names to stores (spec 3, Manifest: an ordered mapping
    from plugin name to that plugin's manifest fragment). *)
Record Config := mkConfig {
  config_id : string;
  config_stores : list (string * Store);
}.

(** Modelled from the spec: [new Config({id})], a configuration without
    stores. *)
Definition Config_new (id : string) : Config := mkConfig id [].

(** Modelled from the spec: [config.add(name, {type: 'literal', store})]
    inserts the store under the name (spec 4.2); as in any object, a name
    already there keeps its place. *)
Definition Config_add (name : string) (store : jsobj) (c : Config) : Config :=
  mkConfig (config_id c) (obj_set name (Literal store) (config_stores c)).

(** Modelled from the spec: how [Config] combines its stores on a read
    (spec 4.2: treat as last-added wins on key collision at the leaf level).
    Two objects are merged property by property; in any other collision the
    later value stands. *)
Fixpoint merge (earlier later : jsval) {struct later} : jsval :=
  match earlier, later with
  | JObj fa, JObj fb =>
      JObj ((fix go (fb acc : jsobj) : jsobj :=
               match fb with
               | [] => acc
               | (k, v) :: fb' =>
                   go fb' (obj_set k (match obj_get k acc with
                                      | Some a => merge a v
                                      | None => v
                                      end) acc)
               end) fb fa)
  | _, _ => later
  end.

(** Modelled from the spec: merging into what earlier stores gave, if
    anything. *)
Definition merge_opt (acc : option jsval) (v : jsval) : option jsval :=
  match acc with
  | None => Some v
  | Some a => Some (merge a v)
  end.

(** Splitting a dotted key such as ['core.caching'] into its segments. *)
Fixpoint split_dots (cur s : string) : list string :=
  match s with
  | EmptyString => [cur]
  | String c s' =>
      if Ascii.eqb c "."%char then cur :: split_dots "" s'
      else split_dots (cur +:+ String c "") s'
  end.

(** Modelled from the spec: [config.get(path)].  Every store is read at the
    path, in the order the stores were added, and the values found are
    merged. *)
Definition Config_get_path (c : Config) (path : list string) : option jsval :=
  fold_left merge_opt
    (omap (fun ns => lookup_path path (JObj (store_data (snd ns)))) (config_stores c))
    None.

(** Modelled from the spec: [config.get(key)] for a dotted key. *)
Definition Config_get (c : Config) (key : string) : option jsval :=
  Config_get_path c (split_dots "" key).

(** Modelled from the spec: [config.get()] with no key, the whole merged
    tree. *)
Definition Config_get_all (c : Config) : option jsval := Config_get_path c [].

(** Modelled from the spec: a registry view over raw data, as built by
    [new Config({data, id})] and [Config.wrap(data, {id, env: false})]
    (spec 4.1: builds a registry view from the current manifest). *)
Definition Config_wrap (data : option jsval) (id : string) : Config :=
  match data with
  | Some (JObj fs) => mkConfig id [("data", Literal fs)]
  | _ => mkConfig id []
  end.

(** ** Plugins *)

(** What [Product] reads of a plugin: its name, its type, and its manifest
    fragment, an object (spec 3, Plugin). *)
Record Plugin := mkPlugin {
  plugin_name : string;
  plugin_type : string;
  plugin_manifest : jsobj;
}.

(** A collection of plugins keyed by name, in [Object.entries] order, which
    for plugin names is the order discovery inserted them in. *)
Abbreviation Plugins := (list (string * Plugin)).

(** What discovery returns: [{disabled, enabled, invalids}]. *)
Record Discovery := mkDiscovery {
  disabled : Plugins;
  enabled : Plugins;
  invalids : Plugins;
}.

(** ** Manifest composition: the loop of [getManifest] *)

Definition stripped_keys : list string := ["name"; "description"; "enabled"; "hidden"].

(** The body of the loop up to [manifest.add]: clone the fragment, then the
    four [delete]s. *)
Definition sanitize (fragment : jsobj) : jsobj :=
  let store := clone_fields fragment in
  let store := obj_delete "name" store in
  let store := obj_delete "description" store in
  let store := obj_delete "enabled" store in
  let store := obj_delete "hidden" store in
  store.

(** [for (const [name, plugin] of Object.entries(plugins).reverse())
       manifest.add(name, {type: 'literal', store})]
    starting from [new Config({id: 'manifest'})]. *)
Definition build_manifest (plugins : Plugins) : Config :=
  fold_left
    (fun manifest np => Config_add (fst np) (sanitize (plugin_manifest (snd np))) manifest)
    (rev plugins)
    (Config_new "manifest").

(** ** Errors *)

Inductive error :=
| Error (message : string)             (* [new Error(message)] thrown by [Product] *)
| ComponentNotFound (key : string)     (* the resolver's NotFound (spec 4.3) *)
| Rejection (reason : jsval).          (* a failure raised by a collaborator *)

Abbreviation result A := (error + A)%type.

(** The two errors of [removePlugin], under the names of the spec's
    taxonomy (spec 7). *)
Definition NotFound (name : string) : error :=
  Error ("could not find a plugin called " +:+ name).

Definition Protected (pluginName : string) : error :=
  Error (pluginName +:+ " is a core plugin and cannot be removed").

(** ** Objects with identity *)

(** A [Config] instance: its identity and its content.  [Product] never
    changes a manifest once [getManifest] has built it, so the content
    travels with the reference. *)
Record ConfigObj := mkConfigObj {
  oid : nat;
  live : Config;
}.

(** Modelled from the spec: an instance the component resolver
    ([utils/get-component-instance], spec 4.3) constructs from a registry
    entry: its identity, the component key, the entry, the constructor
    arguments, the caller's defaults and initializer switch. *)
Record Instance := mkInstance {
  inst_oid : nat;
  inst_key : string;
  inst_entry : jsval;
  inst_args : jsval;
  inst_defaults : option jsval;
  inst_init : option bool;
}.

(** Modelled from the spec: what the resolver hands out and a cache scope
    holds (spec 4.3: a resolved reference, or instance). *)
Inductive Component :=
| Class (entry : jsval)
| Inst (i : Instance).

(** ** The cache store *)

(** What [Product] puts into its cache. *)
Inductive cval :=
| CPlugins (ps : Plugins)
| CConfig (m : ConfigObj)
| CHooks (hs : list jsval).

(** Modelled from the spec: the two storage backends
    ([components/file-storage], [components/no-storage]; spec 2, CacheStore:
    a key/value store with has, get, set and flush, which may be a real
    persistent cache or a no-op). *)
Inductive CacheStore :=
| FileStorage (entries : gmap string cval)
| NoStorage.

(** Modelled from the spec: [has(key)]; the no-op store has nothing. *)
Definition cache_has (key : string) (c : CacheStore) : bool :=
  match c with
  | FileStorage m => bool_decide (is_Some (m !! key))
  | NoStorage => false
  end.

(** Modelled from the spec: [get(key)]; [None] is [undefined]. *)
Definition cache_get (key : string) (c : CacheStore) : option cval :=
  match c with
  | FileStorage m => m !! key
  | NoStorage => None
  end.

(** Modelled from the spec: [set(key, value)]; the no-op store keeps
    nothing. *)
Definition cache_set (key : string) (v : cval) (c : CacheStore) : CacheStore :=
  match c with
  | FileStorage m => FileStorage (<[key := v]> m)
  | NoStorage => NoStorage
  end.

(** Modelled from the spec: [flush()] drops every entry. *)
Definition cache_flush (c : CacheStore) : CacheStore :=
  match c with
  | FileStorage _ => FileStorage ∅
  | NoStorage => NoStorage
  end.

(** Whether the backend keeps what it is given. *)
Definition retains (c : CacheStore) : bool :=
  match c with
  | FileStorage _ => true
  | NoStorage => false
  end.

(** Reading a cached value back at the type its key is written at. *)
Definition as_plugins (v : option cval) : Plugins :=
  match v with Some (CPlugins ps) => ps | _ => [] end.

Definition as_hooks (v : option cval) : list jsval :=
  match v with Some (CHooks hs) => hs | _ => [] end.

(** Modelled from the spec: [new Config(cached)], the manifest reconstructed
    from its cache entry (spec 4.1, getManifest). *)
Definition Config_revive (v : option cval) : Config :=
  match v with Some (CConfig m) => live m | _ => Config_new "" end.

(** ** Calls into collaborators *)

(** A discovery option: a configuration value, or [[this]] (the value of
    [loadOpts]). *)
Inductive optval :=
| OptVal (v : option jsval)
| OptThis.

Inductive event :=
| EvDebug (logger fmt arg : string)
| EvCacheFlush
| EvCacheSet (key : string) (value : cval)
| EvStaticFlush (dir : option jsval)
| EvDiscover (dirs : option jsval) (options : list (string * optval))
| EvConstruct (i : Instance)
| EvFetch (name : string) (dest channel : option jsval) (installer : Component)
| EvRemove (plugin : Plugin)
| EvRunHook (event : string) (data : jsval) (hooks : option (list jsval))
            (context : list string) (logger : string).

(** The collaborators [Product] only calls: what is on disk ([World]),
    [utils/get-plugins], [Plugin.fetch], [plugin.remove()],
    [utils/parse-package-name] (its [name] field), [utils/run-hook] and
    [fs.existsSync]. *)
Class Externals := {
  World : Type;
  get_plugins : World -> option jsval -> list (string * optval) -> Discovery;
  Plugin_fetch :
    World -> string -> option jsval -> option jsval -> Component -> World * result Plugin;
  Plugin_remove : World -> Plugin -> World;
  parse_package_name : string -> string;
  run_hook :
    string -> jsval -> option (list jsval) -> list string -> string -> result jsval;
  existsSync : World -> option jsval -> bool;
}.

(** ** The state of a [Product] and of what it touches *)

Record state {E : Externals} := mkState {
  this_config : Config;
  this_componentsCache : nat;          (* [_componentsCache], a cache scope *)
  this_id : string;
  this_debug : string;                 (* the logger, by its namespace *)
  this_plugins : Plugins;
  this_manifest : ConfigObj;
  this_hooks : option (list jsval);    (* [this.hooks]; [None] is [undefined] *)
  this_cache : CacheStore;             (* [#_cache] *)
  env_world : World;
  env_scopes : gmap nat (gmap string Component);   (* cache scopes, by identity *)
  env_next : nat;                      (* the next fresh identity *)
  env_log : list event;                (* calls made so far, oldest first *)
}.

Arguments state : clear implicits.
Arguments mkState {E}.

Section Product.
Context {E : Externals}.
Implicit Types st : state E.

Definition log_event (e : event) (st : state E) : state E :=
  let 'mkState config cc id debug plugins manifest hooks cache world scopes next log := st in
  mkState config cc id debug plugins manifest hooks cache world scopes next (log ++ [e]).

Definition with_cache (c : CacheStore) (st : state E) : state E :=
  let 'mkState config cc id debug plugins manifest hooks _ world scopes next log := st in
  mkState config cc id debug plugins manifest hooks c world scopes next log.

Definition with_plugins (ps : Plugins) (st : state E) : state E :=
  let 'mkState config cc id debug _ manifest hooks cache world scopes next log := st in
  mkState config cc id debug ps manifest hooks cache world scopes next log.

Definition with_manifest (m : ConfigObj) (st : state E) : state E :=
  let 'mkState config cc id debug plugins _ hooks cache world scopes next log := st in
  mkState config cc id debug plugins m hooks cache world scopes next log.

Definition with_world (w : World) (st : state E) : state E :=
  let 'mkState config cc id debug plugins manifest hooks cache _ scopes next log := st in
  mkState config cc id debug plugins manifest hooks cache w scopes next log.

Definition with_scopes (s : gmap nat (gmap string Component)) (st : state E) : state E :=
  let 'mkState config cc id debug plugins manifest hooks cache world _ next log := st in
  mkState config cc id debug plugins manifest hooks cache world s next log.

(** Taking a fresh identity. *)
Definition new_identity (st : state E) : nat * state E :=
  let 'mkState config cc id debug plugins manifest hooks cache world scopes next log := st in
  (next,
   mkState config cc id debug plugins manifest hooks cache world scopes (S next) log).

(** [this.debug(fmt, arg)]. *)
Definition debug (fmt arg : string) (st : state E) : state E :=
  log_event (EvDebug (this_debug st) fmt arg) st.

(** [this.#_cache.set(key, value)] and [this.#_cache.flush()]. *)
Definition cache_set_ (key : string) (v : cval) (st : state E) : state E :=
  log_event (EvCacheSet key v) (with_cache (cache_set key v (this_cache st)) st).

Definition cache_flush_ (st : state E) : state E :=
  log_event EvCacheFlush (with_cache (cache_flush (this_cache st)) st).

(** *** [getPlugins] *)

Definition discovery_options (st : state E) (options : list (string * optval))
  : list (string * optval) :=
  obj_spread
    [("channel", OptVal (Config_get (this_config st) "core.release-channel"));
     ("config", OptVal (Config_get_all (this_config st)));
     ("loadOpts", OptThis);
     ("type", OptVal (Some (JStr "global")))]
    options.

Definition getPlugins (options : list (string * optval)) (st : state E) : Plugins * state E :=
  if cache_has "plugins.enabled" (this_cache st)
  then (as_plugins (cache_get "plugins.enabled" (this_cache st)), st)
  else
    let st := debug "running %o plugin discovery..." (this_id st) st in
    let dirs := Config_get (this_config st) "plugin.dirs" in
    let opts := discovery_options st options in
    let found := get_plugins (env_world st) dirs opts in
    let st := log_event (EvDiscover dirs opts) st in
    let st := cache_set_ "plugins.disabled" (CPlugins (disabled found)) st in
    let st := cache_set_ "plugins.enabled" (CPlugins (enabled found)) st in
    let st := cache_set_ "plugins.invalid" (CPlugins (invalids found)) st in
    (enabled found, st).

(** *** [getManifest] *)

Definition getManifest (st : state E) : ConfigObj * state E :=
  if cache_has "manifest" (this_cache st)
  then
    let (o, st) := new_identity st in
    (mkConfigObj o (Config_revive (cache_get "manifest" (this_cache st))), st)
  else
    let st := debug "running %o manifest construction..." (this_id st) st in
    let (o, st) := new_identity st in
    let manifest := mkConfigObj o (build_manifest (this_plugins st)) in
    let st := cache_set_ "manifest" (CConfig manifest) st in
    (manifest, st).

(** *** [#_init], [#_reint], [reinit] *)

Definition _init (st : state E) : state E :=
  let (plugins, st) := getPlugins [] st in
  let st := with_plugins plugins st in
  let (manifest, st) := getManifest st in
  with_manifest manifest st.

Definition _reint (st : state E) : state E :=
  _init (cache_flush_ st).

Definition reinit (st : state E) : state E := _reint st.

(** *** [getHooks] *)

Definition getHooks (st : state E) : list jsval * state E :=
  if cache_has "hooks" (this_cache st)
  then (as_hooks (cache_get "hooks" (this_cache st)), st)
  else
    let st := debug "running %o hooks discovery..." (this_id st) st in
    let hooks : list jsval := concat [] in
    let st := cache_set_ "hooks" (CHooks hooks) st in
    (hooks, st).

(** *** [getPlugin], [getRegistry] *)

Definition getPlugin (name : string) (st : state E) : option Plugin :=
  obj_get (parse_package_name name) (this_plugins st).

Definition getRegistry (st : state E) : option jsval :=
  Config_get (live (this_manifest st)) "registry".

(** *** [removePlugin] *)

Definition removePlugin (name : string) (st : state E) : result Plugin * state E :=
  match getPlugin name st with
  | None => (inl (NotFound name), st)
  | Some plugin =>
      if String.eqb (plugin_type plugin) "core"
      then (inl (Protected (plugin_name plugin)), st)
      else
        let st := log_event (EvRemove plugin)
                    (with_world (Plugin_remove (env_world st) plugin) st) in
        let st := _reint st in
        (inr plugin, st)
  end.

(** *** Component resolution *)

(** Modelled from the spec: what a cache scope, a plain object, holds
    under a component key; a scope nobody has written to is empty. *)
Definition scope_lookup (scope : nat) (key : string) (st : state E) : option Component :=
  default ∅ (env_scopes st !! scope) !! key.

(** Modelled from the spec: storing under the component key in a cache
    scope (spec 4.3). *)
Definition scope_store (scope : nat) (key : string) (c : Component) (st : state E)
  : state E :=
  with_scopes
    (<[scope := <[key := c]> (default ∅ (env_scopes st !! scope))]> (env_scopes st)) st.

(** A caller's [{}] handed in as a cache scope. *)
Definition new_scope (st : state E) : nat * state E :=
  let (o, st) := new_identity st in
  (o, with_scopes (<[o := ∅]> (env_scopes st)) st).

(** Modelled from the spec: [utils/get-component] (spec 4.3).  A reference
    the cache scope already holds is returned instead of recomputing;
    otherwise the registry is walked for the key, which fails with NotFound
    when the key has no entry, and the reference found is kept in the
    scope (spec 3, RegistryEntry: resolved at most once per cache scope). *)
Definition get_component (key : string) (config registry : Config)
    (cache : nat) (defaults : option jsval) (st : state E)
  : result Component * state E :=
  match scope_lookup cache key st with
  | Some held => (inr held, st)
  | None =>
      match Config_get registry key with
      | None => (inl (ComponentNotFound key), st)
      | Some entry => (inr (Class entry), scope_store cache key (Class entry) st)
      end
  end.

(** Modelled from the spec: [utils/get-component-instance] (spec 4.3).  As
    above, and the instance variant constructs an object from the
    reference, runs the optional initializer, and stores the object in the
    instance cache under the component key.  With no cache scope there is
    nothing to look into and nothing to store into. *)
Definition get_component_instance (key : string) (constructor : jsval)
    (config : Config) (cache : option nat) (defaults : option jsval)
    (init : option bool) (registry : Config) (st : state E)
  : result Component * state E :=
  match cache ≫= (fun scope => scope_lookup scope key st) with
  | Some held => (inr held, st)
  | None =>
      match Config_get registry key with
      | None => (inl (ComponentNotFound key), st)
      | Some entry =>
          let (o, st) := new_identity st in
          let instance := mkInstance o key entry constructor defaults init in
          let st := log_event (EvConstruct instance) st in
          let st := match cache with
                    | Some scope => scope_store scope key (Inst instance) st
                    | None => st
                    end in
          (inr (Inst instance), st)
      end
  end.

(** The [{cache, defaults, init}] argument of [getComponentInstance];
    [None] is a property the caller left out. *)
Record instance_opts := mkOpts {
  opts_cache : option nat;
  opts_defaults : option jsval;
  opts_init : option bool;
}.

Definition no_opts : instance_opts := mkOpts None None None.

(** [getComponent(component, {cache = this._componentsCache, defaults})]. *)
Definition getComponent (component : string) (cache : option nat)
    (defaults : option jsval) (st : state E) : result Component * state E :=
  let cache := default (this_componentsCache st) cache in
  let registry := Config_wrap (getRegistry st) (this_id st +:+ "-class-cache") in
  get_component component (this_config st) registry cache defaults st.

(** [getComponentInstance(component, constructor = {}, opts = {})]. *)
Definition getComponentInstance (component : string) (constructor : option jsval)
    (opts : instance_opts) (st : state E) : result Component * state E :=
  let constructor := default (JObj []) constructor in
  let registry := Config_wrap (getRegistry st) (this_id st +:+ "-class-cache") in
  get_component_instance component constructor (this_config st)
    (opts_cache opts) (opts_defaults opts) (opts_init opts) registry st.

(** *** [addPlugin] *)

(** Both [await]s are sequenced: a rejection ends the call there.  The
    fixed [type: 'global'] of the fetch options is left out of the event. *)
Definition addPlugin (name : string) (dest : option jsval) (st : state E)
  : result Plugin * state E :=
  let dest := match dest with
              | Some d => Some d
              | None => Config_get (this_config st) "plugin.global-install-dir"
              end in
  let channel := Config_get (this_config st) "core.release-channel" in
  let (installer, st) := getComponentInstance "core.plugin-installer" None no_opts st in
  match installer with
  | inl e => (inl e, st)
  | inr installer =>
      let (world, fetched) := Plugin_fetch (env_world st) name dest channel installer in
      let st := log_event (EvFetch name dest channel installer) (with_world world st) in
      match fetched with
      | inl e => (inl e, st)
      | inr plugin =>
          let st := _reint st in
          (inr plugin, st)
      end
  end.

(** *** [runHook] *)

(** The property names of [{[this.id]: this, product: this}]; both are
    bound to [this]. *)
Definition hook_context (st : state E) : list string :=
  obj_keys (obj_set "product" () (obj_set (this_id st) () [])).

Definition runHook (event : string) (data : jsval) (st : state E)
  : result jsval * state E :=
  let context := hook_context st in
  let st := log_event
              (EvRunHook event data (this_hooks st) context (this_debug st)) st in
  (run_hook event data (this_hooks st) context (this_debug st), st).

(** *** The constructor *)

(** [Product.debug]. *)
Definition Product_debug : string := "@lando/core:product".

(** [new Product(config, debug)], for a configuration that already has its
    defaults and its instance id (lines 52 to 66 only call into the
    configuration).  [persisted] is what a [FileStorage] finds in its
    directory.  [this.plugins] and [this.manifest] get their first values
    from [#_init], before anything reads them; [this.hooks] is assigned
    nowhere in the class. *)
Definition construct (config : Config) (debug : string) (world : World)
    (persisted : gmap string cval) : state E :=
  let id := if String.eqb (config_id config) "" then "lando" else config_id config in
  let caching := truthy (Config_get config "core.caching") in
  let cache := if caching then FileStorage persisted else NoStorage in
  let dir := Config_get config "system.syscache-dir" in
  let log := if negb caching && existsSync world dir then [EvStaticFlush dir] else [] in
  _init (mkState config 0 id debug [] (mkConfigObj 0 (Config_new "")) None cache
           world {[0 := ∅]} 1 log).
End Product.

(** ** Sequences of calls on a [Product] *)

(** The public methods that touch state, and a caller's fresh [{}] used as a
    cache scope. *)
Inductive call :=
| CallAddPlugin (name : string) (dest : option jsval)
| CallGetComponent (component : string) (cache : option nat) (defaults : option jsval)
| CallGetComponentInstance (component : string) (constructor : option jsval)
                           (opts : instance_opts)
| CallGetHooks
| CallGetManifest
| CallGetPlugin (name : string)
| CallGetPlugins (options : list (string * optval))
| CallGetRegistry
| CallReinit
| CallRemovePlugin (name : string)
| CallRunHook (event : string) (data : jsval)
| CallNewScope.

Definition run_call {E : Externals} (c : call) (st : state E) : state E :=
  match c with
  | CallAddPlugin name dest => snd (addPlugin name dest st)
  | CallGetComponent component cache defaults =>
      snd (getComponent component cache defaults st)
  | CallGetComponentInstance component constructor opts =>
      snd (getComponentInstance component constructor opts st)
  | CallGetHooks => snd (getHooks st)
  | CallGetManifest => snd (getManifest st)
  | CallGetPlugin _ => st
  | CallGetPlugins options => snd (getPlugins options st)
  | CallGetRegistry => st
  | CallReinit => reinit st
  | CallRemovePlugin name => snd (removePlugin name st)
  | CallRunHook event data => snd (runHook event data st)
  | CallNewScope => snd (new_scope st)
  end.

Definition run_calls {E : Externals} (cs : list call) (st : state E) : state E :=
  fold_left (fun st c => run_call c st) cs st.

(** The calls that never reach [#_reint]. *)
Definition is_read (c : call) : bool :=
  match c with
  | CallAddPlugin _ _ | CallReinit | CallRemovePlugin _ => false
  | _ => true
  end.

(** A cache whose entries were written together by a [Product]: a cached
    manifest comes with the plugin collection it was built from, and cached
    hooks are the empty list. *)
Definition coherent (c : CacheStore) : Prop :=
  (forall v, cache_get "plugins.enabled" c = Some v -> exists ps, v = CPlugins ps) /\
  (forall v, cache_get "manifest" c = Some v ->
     exists mo ps, v = CConfig mo /\
       cache_get "plugins.enabled" c = Some (CPlugins ps) /\
       live mo = build_manifest ps) /\
  (forall v, cache_get "hooks" c = Some v -> v = CHooks []).

(** What a [FileStorage] finds persisted is a coherent cache, for one an
    empty directory. *)
Definition persisted_ok (m : gmap string cval) : Prop := coherent (FileStorage m).

(** The states a program can meet: a constructed [Product], then any
    calls. *)
Inductive reachable {E : Externals} : state E -> Prop :=
| reach_construct config debug world persisted :
    persisted_ok persisted ->
    reachable (construct config debug world persisted)
| reach_call st c :
    reachable st ->
    reachable (run_call c st).

(** What discovery finds now when called the way [#_init] calls it, and
    the calls [#_reint] makes, in order, on its way to [manifest]. *)
Definition found_now {E : Externals} (st : state E) : Discovery :=
  get_plugins (env_world st) (Config_get (this_config st) "plugin.dirs")
    (discovery_options st []).

Definition reint_trace {E : Externals} (st : state E) (manifest : ConfigObj)
  : list event :=
  [EvCacheFlush;
   EvDebug (this_debug st) "running %o plugin discovery..." (this_id st);
   EvDiscover (Config_get (this_config st) "plugin.dirs") (discovery_options st []);
   EvCacheSet "plugins.disabled" (CPlugins (disabled (found_now st)));
   EvCacheSet "plugins.enabled" (CPlugins (enabled (found_now st)));
   EvCacheSet "plugins.invalid" (CPlugins (invalids (found_now st)));
   EvDebug (this_debug st) "running %o manifest construction..." (this_id st);
   EvCacheSet "manifest" (CConfig manifest)].

(** ** Observations on the log *)

Definition is_flush (e : event) : bool :=
  match e with EvCacheFlush => true | _ => false end.

Definition is_discover (e : event) : bool :=
  match e with EvDiscover _ _ => true | _ => false end.

(** The calls [st'] has made beyond those of [st]. *)
Definition events_since {E : Externals} (st st' : state E) : list event :=
  drop (length (env_log st)) (env_log st').

Definition count_events (p : event -> bool) (l : list event) : nat :=
  length (filter (fun e => p e = true) l).

(** ** State predicates *)

(** No store of the configuration has one of the four fragment-local keys. *)
Definition stripped (c : Config) : Prop :=
  forall name store key,
    (name, store) ∈ config_stores c ->
    key ∈ stripped_keys ->
    obj_get key (store_data store) = None.

(** The derived values agree with one another: the manifest is the one built
    from [this.plugins], and a retaining cache holds exactly these two. *)
Definition synced {E : Externals} (st : state E) : Prop :=
  live (this_manifest st) = build_manifest (this_plugins st) /\
  (retains (this_cache st) = true ->
   cache_get "plugins.enabled" (this_cache st) = Some (CPlugins (this_plugins st)) /\
   exists mo, cache_get "manifest" (this_cache st) = Some (CConfig mo) /\
              live mo = build_manifest (this_plugins st)).

(** The store [getManifest] adds for an entry of [this.plugins]. *)
Definition manifest_entry (np : string * Plugin) : string * Store :=
  (fst np, Literal (sanitize (plugin_manifest (snd np)))).

(** A cached hook list, when there is one, is empty. *)
Definition hooks_cache_empty (c : CacheStore) : Prop :=
  forall v, cache_get "hooks" c = Some v -> v = CHooks [].

(** What holds of every state a program can meet. *)
Definition inv {E : Externals} (st : state E) : Prop :=
  synced st /\ hooks_cache_empty (this_cache st).

(** What a call that never reaches [#_reint] may change of the instance and
    of the world: at most, the empty hook list gets cached. *)
Definition frame {E : Externals} (st st' : state E) : Prop :=
  this_config st' = this_config st /\
  this_componentsCache st' = this_componentsCache st /\
  this_id st' = this_id st /\
  this_debug st' = this_debug st /\
  this_plugins st' = this_plugins st /\
  this_manifest st' = this_manifest st /\
  this_hooks st' = this_hooks st /\
  env_world st' = env_world st /\
  (this_cache st' = this_cache st \/
   this_cache st' = cache_set "hooks" (CHooks []) (this_cache st)).

(** ** Four properties as the specification words them *)

(** Idempotence of [getPlugins] (spec 8): two successive calls return the
    same collection and discovery is invoked at most once. *)
Definition getPlugins_idempotent {E : Externals} (st : state E) : Prop :=
  let first := getPlugins [] st in
  let second := getPlugins [] first.2 in
  second.1 = first.1 /\
  count_events is_discover (events_since st second.2) <= 1.

(** [getManifest] returns a wrapper of its own, not the value it has cached
    (spec 4.1): the object returned is neither what the call handed to the
    cache nor what the cache holds afterwards. *)
Definition returns_fresh_wrapper {E : Externals} (st : state E) : Prop :=
  let returned := getManifest st in
  (EvCacheSet "manifest" (CConfig returned.1) ∉ events_since st returned.2) /\
  cache_get "manifest" (this_cache returned.2) <> Some (CConfig returned.1).


(** Once [getHooks] has run, a later call returns the cached empty list and
    runs nothing again. *)
Definition hooks_cached_after_first_call {E : Externals} (st : state E) : Prop :=
  let first := getHooks st in
  let later := getHooks first.2 in
  first.1 = [] /\ later.1 = [] /\ events_since first.2 later.2 = [].

(** ** A small installation to evaluate the model on *)

Module Sim.
(** The world is the list of installed plugins; all of them are enabled.
    Fetching ["broken"] is rejected, any other name installs a plugin with
    an empty manifest. *)
Definition externals : Externals := {|
  World := Plugins;
  get_plugins w _ _ := mkDiscovery [] w [];
  Plugin_fetch w name _ _ _ :=
    if String.eqb name "broken" then (w, inl (Rejection (JStr "E404")))
    else (obj_set name (mkPlugin name "global" []) w,
          inr (mkPlugin name "global" []));
  Plugin_remove w p := obj_delete (plugin_name p) w;
  parse_package_name name := name;
  run_hook _ _ _ _ _ := inr JNull;
  existsSync _ _ := false;
|}.

Definition registry_of (owner : string) : jsval :=
  JObj [("core", JObj [("plugin-installer", JStr (owner +:+ "/installer"))]);
        ("x", JStr (owner +:+ "/x"))].

Definition pluginA : Plugin :=
  mkPlugin "a" "core"
    [("name", JStr "a"); ("description", JStr "first");
     ("registry", registry_of "a"); ("leaf", JNum 1)].

Definition pluginB : Plugin :=
  mkPlugin "b" "global"
    [("name", JStr "b"); ("enabled", JBool true); ("hidden", JUndef);
     ("registry", registry_of "b"); ("leaf", JNum 2)].

Definition pluginC : Plugin :=
  mkPlugin "c" "global" [("name", JStr "c"); ("leaf", JNum 3)].

Definition disk : Plugins := [("a", pluginA); ("b", pluginB); ("c", pluginC)].

Definition config_with (caching : bool) : Config :=
  mkConfig "lando"
    [("defaults",
      Literal [("core", JObj [("caching", JBool caching);
                              ("release-channel", JStr "stable")]);
               ("plugin", JObj [("dirs", JArr [JStr "/plugins"])])])].

(** A [Product] with caching on and nothing persisted, and one with
    caching off. *)
Definition caching : state externals :=
  construct (E := externals) (config_with true) Product_debug disk ∅.

Definition uncached : state externals :=
  construct (E := externals) (config_with false) Product_debug disk ∅.

(** The caching [Product] inside [#_reint], between the [flush] and
    [#_init]. *)
Definition flushed : state externals := cache_flush_ caching.
End Sim.

(** ** Further observations *)

Definition is_fetch (e : event) : bool :=
  match e with EvFetch _ _ _ _ => true | _ => false end.


(** The keys [Product] writes its cache under. *)
Definition cache_keys : list string :=
  ["plugins.disabled"; "plugins.enabled"; "plugins.invalid"; "manifest"; "hooks"].

(** A [set] on the cache is a [set] under one of these keys. *)
Definition event_ok (e : event) : bool :=
  match e with
  | EvCacheSet key _ => existsb (String.eqb key) cache_keys
  | _ => true
  end.

(** Events with sets under the five keys only, and at most [flushes]
    flushes of the cache. *)
Definition tidy (flushes : nat) (evs : list event) : Prop :=
  forallb event_ok evs = true /\ count_events is_flush evs <= flushes.

(** A value [JSON.stringify] writes out in full: [undefined] occurs nowhere
    in it. *)
Fixpoint json_clean (v : jsval) : bool :=
  match v with
  | JUndef => false
  | JArr xs =>
      (fix go (xs : list jsval) : bool :=
         match xs with
         | [] => true
         | x :: xs' => json_clean x && go xs'
         end) xs
  | JObj fs =>
      (fix go (fs : jsobj) : bool :=
         match fs with
         | [] => true
         | (_, x) :: fs' => json_clean x && go fs'
         end) fs
  | _ => true
  end.

Definition clean_fields : jsobj -> bool :=
  fix go (fs : jsobj) : bool :=
    match fs with
    | [] => true
    | (_, x) :: fs' => json_clean x && go fs'
    end.

Definition clean_items : list jsval -> bool :=
  fix go (xs : list jsval) : bool :=
    match xs with
    | [] => true
    | x :: xs' => json_clean x && go xs'
    end.

(** The defaults [getPlugins] spreads the caller's options over. *)
Definition discovery_defaults {E : Externals} (st : state E) : list (string * optval) :=
  [("channel", OptVal (Config_get (this_config st) "core.release-channel"));
   ("config", OptVal (Config_get_all (this_config st)));
   ("loadOpts", OptThis);
   ("type", OptVal (Some (JStr "global")))].

Module Sim2.
(** An installation whose only plugin declares no registry, so that no
  component can be resolved. *)
Definition bare : state Sim.externals :=
construct (E := Sim.externals) (Sim.config_with true) Product_debug
  [("c", Sim.pluginC)] ∅.



End Sim2.

(** * Properties *)

(** ** Objects *)

Section ObjectFacts.
Context {A : Type}.
Implicit Types o : list (string * A).

Lemma obj_get_delete_eq k o : obj_get k (obj_delete k o) = None.
Proof.
  induction o as [|[k' v] o IH]; simpl; [done|].
  destruct (String.eqb_spec k k') as [->|Hne]; simpl; [done|].
  destruct (String.eqb_spec k k'); [done|]. exact IH.
Qed.

Lemma obj_get_delete_ne k k' o :
  k <> k' -> obj_get k (obj_delete k' o) = obj_get k o.
Proof.
  intros Hne. induction o as [|[k0 v] o IH]; simpl; [done|].
  destruct (String.eqb_spec k' k0) as [->|Hne'].
  - destruct (String.eqb_spec k k0); [done|]. exact IH.
  - simpl. destruct (String.eqb_spec k k0); [done|]. exact IH.
Qed.

Lemma obj_get_delete_None k k' o :
  obj_get k o = None -> obj_get k (obj_delete k' o) = None.
Proof.
  intros Hget. destruct (decide (k = k')) as [->|Hne].
  - apply obj_get_delete_eq.
  - by rewrite obj_get_delete_ne.
Qed.

Lemma obj_set_fresh k v o :
  k ∉ obj_keys o -> obj_set k v o = o ++ [(k, v)].
Proof.
  induction o as [|[k' v'] o IH]; simpl; [done|].
  intros Hnotin. apply not_elem_of_cons in Hnotin as [Hne Hnotin].
  destruct (String.eqb_spec k k'); [done|].
  by rewrite IH.
Qed.

Lemma elem_of_obj_set x k v o :
  x ∈ obj_set k v o -> x = (k, v) \/ x ∈ o.
Proof.
  induction o as [|[k' v'] o IH]; simpl.
  - intros Hin. apply list_elem_of_singleton in Hin. by left.
  - destruct (String.eqb_spec k k') as [->|Hne]; intros Hin.
    + apply elem_of_cons in Hin as [->|Hin]; [by left|].
      right. by apply elem_of_cons; right.
    + apply elem_of_cons in Hin as [->|Hin].
      * right. by apply elem_of_cons; left.
      * destruct (IH Hin) as [->|Hin']; [by left|].
        right. by apply elem_of_cons; right.
Qed.

Lemma obj_get_set_eq k v o : obj_get k (obj_set k v o) = Some v.
Proof.
  induction o as [|[k' v'] o IH]; simpl.
  - by rewrite String.eqb_refl.
  - destruct (String.eqb_spec k k') as [->|Hne]; simpl.
    + by rewrite String.eqb_refl.
    + destruct (String.eqb_spec k k'); [done|]. exact IH.
Qed.
End ObjectFacts.

(** ** The JSON round trip *)

Lemma json_clone_obj fs : json_clone (JObj fs) = JObj (clone_fields fs).
Proof. reflexivity. Qed.

Lemma json_clone_leaf v : is_leaf v = true -> json_clone v = v.
Proof. by destruct v. Qed.

Lemma lookup_path_undef path : lookup_path path JUndef = None.
Proof. by destruct path. Qed.

(** A defined property survives the round trip, cloned. *)
Lemma obj_get_clone_fields k fs x :
  obj_get k fs = Some x -> x <> JUndef ->
  obj_get k (clone_fields fs) = Some (json_clone x).
Proof.
  intros Hget Hdef. induction fs as [|[k' y] fs IH]; simpl in *; [done|].
  destruct (String.eqb_spec k k') as [->|Hne].
  - injection Hget as ->. destruct x; try done; simpl; by rewrite String.eqb_refl.
  - specialize (IH Hget).
    destruct y; simpl; try (destruct (String.eqb_spec k k'); [done|]); exact IH.
Qed.

(** A leaf declared at a path is found at the same path after the round
    trip. *)
Lemma lookup_path_clone path : forall x v,
  lookup_path path x = Some v -> is_leaf v = true ->
  lookup_path path (json_clone x) = Some v.
Proof.
  induction path as [|k path IH]; intros x v Hlook Hleaf.
  - simpl in Hlook. destruct x; simplify_eq; try done.
  - simpl in Hlook. destruct x as [| | | | | |fs]; try done.
    destruct (obj_get k fs) as [x'|] eqn:Hget; [|done].
    assert (x' <> JUndef) as Hdef.
    { intros ->. by rewrite lookup_path_undef in Hlook. }
    rewrite json_clone_obj. simpl.
    rewrite (obj_get_clone_fields _ _ _ Hget Hdef).
    by apply IH.
Qed.

(** ** [sanitize] *)

Lemma sanitize_strips fragment key :
  key ∈ stripped_keys -> obj_get key (sanitize fragment) = None.
Proof.
  unfold stripped_keys, sanitize. intros Hin.
  repeat (apply elem_of_cons in Hin as [->|Hin]);
    [ | | | | by apply elem_of_nil in Hin ].
  - do 3 apply obj_get_delete_None. apply obj_get_delete_eq.
  - do 2 apply obj_get_delete_None. apply obj_get_delete_eq.
  - apply obj_get_delete_None. apply obj_get_delete_eq.
  - apply obj_get_delete_eq.
Qed.

Lemma sanitize_keeps fragment key :
  key ∉ stripped_keys ->
  obj_get key (sanitize fragment) = obj_get key (clone_fields fragment).
Proof.
  unfold stripped_keys, sanitize. intros Hnotin.
  repeat (apply not_elem_of_cons in Hnotin as [? Hnotin]).
  by rewrite !obj_get_delete_ne.
Qed.

(** A leaf a fragment declares below a key that is not stripped is still
    there in the sanitized fragment. *)
Lemma sanitize_lookup_path fragment key path v :
  key ∉ stripped_keys ->
  lookup_path (key :: path) (JObj fragment) = Some v ->
  is_leaf v = true ->
  lookup_path (key :: path) (JObj (sanitize fragment)) = Some v.
Proof.
  intros Hkey Hlook Hleaf.
  apply (lookup_path_clone _ _ _ Hlook) in Hleaf as Hclone.
  rewrite json_clone_obj in Hclone. simpl in *.
  by rewrite sanitize_keeps.
Qed.

(** ** Manifest composition *)

Lemma Config_add_stores name store c :
  config_stores (Config_add name store c)
  = obj_set name (Literal store) (config_stores c).
Proof. reflexivity. Qed.

Lemma compose_elem (l : Plugins) : forall c x,
  x ∈ config_stores
        (fold_left (fun manifest np =>
                      Config_add (fst np) (sanitize (plugin_manifest (snd np))) manifest)
                   l c) ->
  x ∈ config_stores c \/ exists np, np ∈ l /\ x = manifest_entry np.
Proof.
  induction l as [|np l IH]; intros c x Hin; simpl in Hin; [by left|].
  apply IH in Hin as [Hin|(np' & Hnp' & ->)].
  - rewrite Config_add_stores in Hin.
    apply elem_of_obj_set in Hin as [->|Hin]; [|by left].
    right. exists np. split; [by apply elem_of_cons; left|done].
  - right. exists np'. split; [by apply elem_of_cons; right|done].
Qed.

Lemma build_manifest_elem ps x :
  x ∈ config_stores (build_manifest ps) ->
  exists np, np ∈ ps /\ x = manifest_entry np.
Proof.
  intros Hin. apply compose_elem in Hin as [Hin|(np & Hnp & ->)].
  - by apply elem_of_nil in Hin.
  - exists np. split; [|done]. apply list_elem_of_In, in_rev. by apply list_elem_of_In.
Qed.

Lemma build_manifest_stripped ps : stripped (build_manifest ps).
Proof.
  intros name store key Hin Hkey.
  apply build_manifest_elem in Hin as (np & _ & Heq).
  injection Heq as -> ->. simpl. by apply sanitize_strips.
Qed.

(** When the names are distinct every [add] appends. *)
Lemma compose_stores (l : Plugins) : forall c,
  NoDup (obj_keys l) ->
  (forall k, k ∈ obj_keys l -> k ∉ obj_keys (config_stores c)) ->
  config_stores
    (fold_left (fun manifest np =>
                  Config_add (fst np) (sanitize (plugin_manifest (snd np))) manifest)
               l c)
  = config_stores c ++ map manifest_entry l.
Proof.
  induction l as [|[n p] l IH]; intros c Hnodup Hfresh; simpl.
  - by rewrite app_nil_r.
  - simpl in Hnodup. apply NoDup_cons in Hnodup as [Hn Hnodup].
    rewrite IH; [|done|].
    + rewrite Config_add_stores. simpl.
      rewrite obj_set_fresh; [|apply Hfresh; simpl; by apply elem_of_cons; left].
      by rewrite <- app_assoc.
    + intros k Hk. rewrite Config_add_stores. simpl.
      rewrite obj_set_fresh; [|apply Hfresh; simpl; by apply elem_of_cons; left].
      unfold obj_keys. rewrite map_app. simpl.
      intros Hin. apply elem_of_app in Hin as [Hin|Hin].
      * eapply Hfresh; [|exact Hin]. simpl. by apply elem_of_cons; right.
      * apply list_elem_of_singleton in Hin as ->. by apply Hn.
Qed.

Lemma build_manifest_stores ps :
  NoDup (obj_keys ps) ->
  config_stores (build_manifest ps) = map manifest_entry (rev ps).
Proof.
  intros Hnodup. unfold build_manifest. rewrite compose_stores; [done| |].
  - unfold obj_keys. rewrite map_rev. apply NoDup_ListNoDup, NoDup_rev. by apply NoDup_ListNoDup.
  - intros k _ Hin. by apply elem_of_nil in Hin.
Qed.

(** ** Reading a [Config] *)

Lemma merge_leaf earlier v : is_leaf v = true -> merge earlier v = v.
Proof. by destruct earlier, v. Qed.

(** The store added last decides a leaf. *)
Lemma Config_get_path_last c before name store path v :
  config_stores c = before ++ [(name, store)] ->
  lookup_path path (JObj (store_data store)) = Some v ->
  is_leaf v = true ->
  Config_get_path c path = Some v.
Proof.
  intros Hstores Hlook Hleaf. unfold Config_get_path.
  rewrite Hstores, omap_app, fold_left_app. simpl. rewrite Hlook. simpl.
  unfold merge_opt.
  destruct (fold_left _ _ None); [by rewrite merge_leaf|done].
Qed.

(** A key no store has is read as [undefined]. *)
Lemma Config_get_path_absent c key path :
  (forall name store, (name, store) ∈ config_stores c ->
                      obj_get key (store_data store) = None) ->
  Config_get_path c (key :: path) = None.
Proof.
  intros Habsent. unfold Config_get_path.
  assert (omap (fun ns => lookup_path (key :: path) (JObj (store_data ns.2)))
               (config_stores c) = []) as ->; [|done].
  induction (config_stores c) as [|[n s] l IH]; [done|]. simpl.
  rewrite (Habsent n s); [|by apply elem_of_cons; left].
  apply IH. intros n' s' Hin. apply (Habsent n' s'). by apply elem_of_cons; right.
Qed.

Lemma stripped_get_path c key path :
  stripped c -> key ∈ stripped_keys -> Config_get_path c (key :: path) = None.
Proof.
  intros Hstripped Hkey. apply Config_get_path_absent.
  intros name store Hin. by apply (Hstripped name store key).
Qed.

(** ** The cache store *)

Lemma cache_has_flush key c : cache_has key (cache_flush c) = false.
Proof.
  destruct c; simpl; [|done].
  rewrite lookup_empty. apply bool_decide_eq_false. by intros [? ?].
Qed.

Lemma cache_get_flush key c : cache_get key (cache_flush c) = None.
Proof. destruct c; simpl; [|done]. apply lookup_empty. Qed.

Lemma cache_has_set_ne key key' v c :
  key <> key' -> cache_has key (cache_set key' v c) = cache_has key c.
Proof. intros Hne. destruct c; simpl; [|done]. by rewrite lookup_insert_ne. Qed.

Lemma cache_get_set_ne key key' v c :
  key <> key' -> cache_get key (cache_set key' v c) = cache_get key c.
Proof. intros Hne. destruct c; simpl; [|done]. by rewrite lookup_insert_ne. Qed.

Lemma cache_has_get key c : cache_has key c = true <-> is_Some (cache_get key c).
Proof.
  destruct c; simpl.
  - apply bool_decide_eq_true.
  - split; [done|]. by intros [? ?].
Qed.

Lemma cache_has_None key c : cache_has key c = false <-> cache_get key c = None.
Proof.
  destruct c; simpl; [|done].
  rewrite bool_decide_eq_false. by rewrite eq_None_not_Some.
Qed.

(** What a retaining store was given it gives back. *)
Lemma cache_get_set_file key v m :
  cache_get key (cache_set key v (FileStorage m)) = Some v.
Proof. simpl. apply lookup_insert_eq. Qed.

(** A no-op store never holds anything. *)
Lemma cache_has_set_none key key' v :
  cache_has key (cache_set key' v NoStorage) = false.
Proof. reflexivity. Qed.

(** ** [#_reint] in one step *)

(** From here on the cache and the configuration are used through their
    lemmas only. *)
#[global] Arguments cache_has : simpl never.
#[global] Arguments cache_get : simpl never.
#[global] Arguments cache_set : simpl never.
#[global] Arguments cache_flush : simpl never.
#[global] Arguments Config_get : simpl never.
#[global] Arguments Config_get_all : simpl never.
#[global] Arguments build_manifest : simpl never.
#[global] Arguments discovery_options : simpl never.

Ltac unfold_state_ops :=
  unfold cache_set_, cache_flush_, debug, log_event, with_cache, with_plugins,
    with_manifest, with_world, with_scopes, new_identity in *.

Section ReintFacts.
Context {E : Externals}.
Implicit Types st : state E.

Lemma _reint_unfold st :
  let found := found_now st in
  let manifest := mkConfigObj (env_next st) (build_manifest (enabled found)) in
  _reint st =
  mkState (this_config st) (this_componentsCache st) (this_id st) (this_debug st)
    (enabled found) manifest (this_hooks st)
    (cache_set "manifest" (CConfig manifest)
       (cache_set "plugins.invalid" (CPlugins (invalids found))
          (cache_set "plugins.enabled" (CPlugins (enabled found))
             (cache_set "plugins.disabled" (CPlugins (disabled found))
                (cache_flush (this_cache st))))))
    (env_world st) (env_scopes st) (S (env_next st))
    (env_log st ++ reint_trace st manifest).
Proof.
  destruct st as [cfg cc id dbg ps m hs c w sc nx lg].
  unfold _reint, _init, getPlugins, cache_flush_, with_cache, log_event. simpl.
  rewrite cache_has_flush.
  unfold getManifest, cache_set_, debug, with_plugins, with_cache, log_event, new_identity.
  simpl. rewrite !cache_has_set_ne by done. rewrite cache_has_flush.
  unfold with_manifest, reint_trace, found_now. simpl.
  f_equal. by rewrite <- !app_assoc.
Qed.
End ReintFacts.

(** ** Retaining and no-op stores *)

Lemma retains_set key v c : retains (cache_set key v c) = retains c.
Proof. by destruct c. Qed.

Lemma retains_flush c : retains (cache_flush c) = retains c.
Proof. by destruct c. Qed.

Lemma cache_get_set_eq key v c :
  retains c = true -> cache_get key (cache_set key v c) = Some v.
Proof. destruct c; [|done]. intros _. apply cache_get_set_file. Qed.

Lemma cache_get_none key c : retains c = false -> cache_get key c = None.
Proof. by destruct c. Qed.

Lemma cache_has_none key c : retains c = false -> cache_has key c = false.
Proof. by destruct c. Qed.

Lemma cache_set_none key v c : retains c = false -> cache_set key v c = c.
Proof. by destruct c. Qed.

Lemma cache_set_set key v c : cache_set key v (cache_set key v c) = cache_set key v c.
Proof. destruct c; [|done]. unfold cache_set. by rewrite insert_insert_eq. Qed.

Lemma coherent_flush c : coherent (cache_flush c).
Proof.
  repeat split; intros v Hv; by rewrite cache_get_flush in Hv.
Qed.

Lemma coherent_none c : retains c = false -> coherent c.
Proof.
  intros Hc. repeat split; intros v Hv; by rewrite cache_get_none in Hv.
Qed.

(** ** The invariant *)

Section Invariant.
Context {E : Externals}.
Implicit Types st : state E.

Lemma frame_refl st : frame st st.
Proof. repeat split; by left. Qed.

Lemma frame_trans st1 st2 st3 : frame st1 st2 -> frame st2 st3 -> frame st1 st3.
Proof.
  intros (?&?&?&?&?&?&?&?&Hc12) (?&?&?&?&?&?&?&?&Hc23).
  repeat split; try congruence.
  destruct Hc12 as [Hx|Hx], Hc23 as [Hy|Hy];
    rewrite Hy, Hx, ?cache_set_set; auto.
Qed.

Lemma frame_inv st st' : frame st st' -> inv st -> inv st'.
Proof.
  intros (_&_&_&_&Hps&Hm&_&_&Hc) ((Hlive&Hcache)&Hempty).
  unfold inv, synced. rewrite Hps, Hm.
  destruct Hc as [-> | ->]; [done|].
  split; [split|]; [done| |].
  - intros Hr. rewrite retains_set in Hr.
    rewrite !cache_get_set_ne by done. by apply Hcache.
  - intros v Hv. destruct (retains (this_cache st)) eqn:Hr.
    + rewrite cache_get_set_eq in Hv by done. by injection Hv.
    + rewrite cache_set_none in Hv by done. by apply Hempty.
Qed.

Lemma frame_hooks st st' : frame st st' -> this_hooks st' = this_hooks st.
Proof. by intros (_&_&_&_&_&_&Hhs&_). Qed.

Lemma frame_found_now st st' : frame st st' -> found_now st' = found_now st.
Proof.
  intros (Hcfg&_&_&_&_&_&_&Hw&_).
  unfold found_now, discovery_options. by rewrite Hcfg, Hw.
Qed.

(** What is outside the instance does not matter to the invariant. *)
Lemma frame_log_event e st : frame st (log_event e st).
Proof. destruct st. repeat split; by left. Qed.

Lemma inv_with_world w st : inv st -> inv (with_world w st).
Proof. by destruct st. Qed.

Lemma inv_log_event e st : inv st -> inv (log_event e st).
Proof. by destruct st. Qed.

Lemma frame_with_scopes s st : frame st (with_scopes s st).
Proof. destruct st. repeat split; by left. Qed.

Lemma frame_fresh st : frame st (new_identity st).2.
Proof. destruct st. repeat split; by left. Qed.

Lemma frame_new_scope st : frame st (new_scope st).2.
Proof. destruct st. repeat split; by left. Qed.

Lemma frame_scope_store scope key c st : frame st (scope_store scope key c st).
Proof. apply frame_with_scopes. Qed.

Lemma frame_runHook event data st : frame st (runHook event data st).2.
Proof. apply frame_log_event. Qed.

Lemma frame_get_component key config registry cache defaults st :
  frame st (get_component key config registry cache defaults st).2.
Proof.
  unfold get_component.
  destruct (scope_lookup cache key st); [apply frame_refl|].
  destruct (Config_get registry key); [|apply frame_refl].
  apply frame_scope_store.
Qed.

Lemma frame_get_component_instance key ctor config cache defaults init registry st :
  frame st (get_component_instance key ctor config cache defaults init registry st).2.
Proof.
  unfold get_component_instance.
  destruct (cache ≫= _); [apply frame_refl|].
  destruct (Config_get registry key); [|apply frame_refl].
  destruct (new_identity st) as [o st1] eqn:Hfresh.
  assert (frame st st1) as Hst1.
  { replace st1 with (new_identity st).2 by (by rewrite Hfresh). apply frame_fresh. }
  destruct cache; simpl.
  - eapply frame_trans; [exact Hst1|].
    eapply frame_trans; [apply frame_log_event|apply frame_scope_store].
  - eapply frame_trans; [exact Hst1|apply frame_log_event].
Qed.

Lemma frame_getComponent component cache defaults st :
  frame st (getComponent component cache defaults st).2.
Proof. apply frame_get_component. Qed.

Lemma frame_getComponentInstance component ctor opts st :
  frame st (getComponentInstance component ctor opts st).2.
Proof. apply frame_get_component_instance. Qed.
End Invariant.

(** ** The cached getters, branch by branch *)

Section Getters.
Context {E : Externals}.
Implicit Types st : state E.

Lemma getPlugins_hit options st v :
  cache_get "plugins.enabled" (this_cache st) = Some v ->
  getPlugins options st = (as_plugins (Some v), st).
Proof.
  intros Hv. unfold getPlugins.
  rewrite (proj2 (cache_has_get _ _)) by (by rewrite Hv). by rewrite Hv.
Qed.

Lemma getPlugins_miss options st :
  cache_has "plugins.enabled" (this_cache st) = false ->
  let dirs := Config_get (this_config st) "plugin.dirs" in
  let opts := discovery_options st options in
  let found := get_plugins (env_world st) dirs opts in
  getPlugins options st =
  (enabled found,
   mkState (this_config st) (this_componentsCache st) (this_id st) (this_debug st)
     (this_plugins st) (this_manifest st) (this_hooks st)
     (cache_set "plugins.invalid" (CPlugins (invalids found))
        (cache_set "plugins.enabled" (CPlugins (enabled found))
           (cache_set "plugins.disabled" (CPlugins (disabled found))
              (this_cache st))))
     (env_world st) (env_scopes st) (env_next st)
     (env_log st ++
      [EvDebug (this_debug st) "running %o plugin discovery..." (this_id st);
       EvDiscover dirs opts;
       EvCacheSet "plugins.disabled" (CPlugins (disabled found));
       EvCacheSet "plugins.enabled" (CPlugins (enabled found));
       EvCacheSet "plugins.invalid" (CPlugins (invalids found))])).
Proof.
  intros Hmiss. unfold getPlugins. rewrite Hmiss.
  destruct st as [cfg cc id dbg ps m hs c w sc nx lg]. unfold_state_ops. simpl.
  f_equal. f_equal. by rewrite <- !app_assoc.
Qed.

Lemma getManifest_hit st v :
  cache_get "manifest" (this_cache st) = Some v ->
  getManifest st = (mkConfigObj (env_next st) (Config_revive (Some v)), (new_identity st).2).
Proof.
  intros Hv. unfold getManifest.
  rewrite (proj2 (cache_has_get _ _)) by (by rewrite Hv).
  destruct st. simpl in *. by rewrite Hv.
Qed.

Lemma getManifest_miss st :
  cache_has "manifest" (this_cache st) = false ->
  let manifest := mkConfigObj (env_next st) (build_manifest (this_plugins st)) in
  getManifest st =
  (manifest,
   mkState (this_config st) (this_componentsCache st) (this_id st) (this_debug st)
     (this_plugins st) (this_manifest st) (this_hooks st)
     (cache_set "manifest" (CConfig manifest) (this_cache st))
     (env_world st) (env_scopes st) (S (env_next st))
     (env_log st ++
      [EvDebug (this_debug st) "running %o manifest construction..." (this_id st);
       EvCacheSet "manifest" (CConfig manifest)])).
Proof.
  intros Hmiss. unfold getManifest. rewrite Hmiss.
  destruct st as [cfg cc id dbg ps m hs c w sc nx lg]. unfold_state_ops. simpl.
  f_equal. f_equal. by rewrite <- !app_assoc.
Qed.

Lemma getHooks_hit st v :
  cache_get "hooks" (this_cache st) = Some v ->
  getHooks st = (as_hooks (Some v), st).
Proof.
  intros Hv. unfold getHooks.
  rewrite (proj2 (cache_has_get _ _)) by (by rewrite Hv). by rewrite Hv.
Qed.

Lemma getHooks_miss st :
  cache_has "hooks" (this_cache st) = false ->
  getHooks st =
  ([],
   mkState (this_config st) (this_componentsCache st) (this_id st) (this_debug st)
     (this_plugins st) (this_manifest st) (this_hooks st)
     (cache_set "hooks" (CHooks []) (this_cache st))
     (env_world st) (env_scopes st) (env_next st)
     (env_log st ++
      [EvDebug (this_debug st) "running %o hooks discovery..." (this_id st);
       EvCacheSet "hooks" (CHooks [])])).
Proof.
  intros Hmiss. unfold getHooks. rewrite Hmiss.
  destruct st as [cfg cc id dbg ps m hs c w sc nx lg]. unfold_state_ops. simpl.
  f_equal. f_equal. by rewrite <- !app_assoc.
Qed.

(** *** What the getters leave alone *)

Lemma frame_getHooks st : frame st (getHooks st).2.
Proof.
  destruct (cache_has "hooks" (this_cache st)) eqn:Hhas.
  - apply cache_has_get in Hhas as [v Hv].
    rewrite (getHooks_hit _ _ Hv). apply frame_refl.
  - rewrite (getHooks_miss _ Hhas). simpl. repeat split. by right.
Qed.

Lemma frame_getPlugins options st : synced st -> frame st (getPlugins options st).2.
Proof.
  intros [_ Hcache]. destruct (retains (this_cache st)) eqn:Hr.
  - destruct (Hcache eq_refl) as [Hps _].
    rewrite (getPlugins_hit _ _ _ Hps). apply frame_refl.
  - rewrite getPlugins_miss by (by apply cache_has_none). simpl.
    repeat split. left.
    rewrite (cache_set_none "plugins.disabled") by done.
    rewrite (cache_set_none "plugins.enabled") by done.
    by rewrite cache_set_none.
Qed.

Lemma frame_getManifest st : synced st -> frame st (getManifest st).2.
Proof.
  intros [_ Hcache]. destruct (retains (this_cache st)) eqn:Hr.
  - destruct (Hcache eq_refl) as [_ (mo & Hmo & _)].
    rewrite (getManifest_hit _ _ Hmo). apply frame_fresh.
  - rewrite getManifest_miss by (by apply cache_has_none). simpl.
    repeat split. left. by rewrite cache_set_none.
Qed.

(** In a synced state [getManifest] hands out the manifest of
    [this.plugins], from the cache or built anew. *)
Lemma getManifest_synced st :
  synced st -> live (getManifest st).1 = build_manifest (this_plugins st).
Proof.
  intros [_ Hcache]. destruct (retains (this_cache st)) eqn:Hr.
  - destruct (Hcache eq_refl) as [_ (mo & Hmo & Hlive)].
    by rewrite (getManifest_hit _ _ Hmo).
  - by rewrite getManifest_miss by (by apply cache_has_none).
Qed.

(** [getPlugins()] hands out [this.plugins] from a retaining cache, and
    discovers again with a no-op one. *)
Lemma getPlugins_synced st :
  synced st ->
  (getPlugins [] st).1
  = if retains (this_cache st) then this_plugins st else enabled (found_now st).
Proof.
  intros [_ Hcache]. destruct (retains (this_cache st)) eqn:Hr.
  - destruct (Hcache eq_refl) as [Hps _].
    by rewrite (getPlugins_hit _ _ _ Hps).
  - by rewrite getPlugins_miss by (by apply cache_has_none).
Qed.
End Getters.

(** ** [#_init] establishes the invariant *)

Section Init.
Context {E : Externals}.
Implicit Types st : state E.

Lemma inv_init st :
  coherent (this_cache st) -> inv (_init st).
Proof.
  intros (Hcp & Hcm & Hch). unfold _init.
  destruct st as [cfg cc id dbg ps0 m0 hs c w sc nx lg]. simpl in *.
  destruct (cache_has "plugins.enabled" c) eqn:Hp.
  - apply cache_has_get in Hp as [v Hv]. destruct (Hcp v Hv) as [ps ->].
    erewrite getPlugins_hit by (simpl; exact Hv). simpl.
    destruct (cache_has "manifest" c) eqn:Hm.
    + apply cache_has_get in Hm as [v' Hv'].
      destruct (Hcm v' Hv') as (mo & ps' & -> & Hps' & Hlive).
      rewrite Hv in Hps'. injection Hps' as <-.
      erewrite getManifest_hit by (simpl; exact Hv'). simpl.
      split; [split|]; simpl; [done| |done].
      intros _. split; [done|]. by exists mo.
    + rewrite getManifest_miss by done. simpl.
      split; [split|]; simpl; [done| |].
      * rewrite retains_set. intros Hr. rewrite cache_get_set_ne by done.
        split; [done|]. eexists. by rewrite cache_get_set_eq.
      * intros v' Hv'. rewrite cache_get_set_ne in Hv' by done. by apply Hch.
  - rewrite getPlugins_miss by done. simpl.
    set (found := get_plugins w _ _).
    assert (cache_has "manifest" c = false) as Hm.
    { destruct (cache_has "manifest" c) eqn:Hm; [|done].
      apply cache_has_get in Hm as [v' Hv'].
      destruct (Hcm v' Hv') as (mo & ps' & _ & Hps' & _).
      apply cache_has_None in Hp. by rewrite Hp in Hps'. }
    rewrite getManifest_miss by (simpl; by rewrite !cache_has_set_ne).
    simpl.
    split; [split|]; simpl; [done| |].
    + rewrite !retains_set. intros Hr. split.
      * rewrite !cache_get_set_ne by done. by rewrite cache_get_set_eq by (by rewrite retains_set).
      * eexists. by rewrite cache_get_set_eq by (by rewrite !retains_set).
    + intros v' Hv'. rewrite !cache_get_set_ne in Hv' by done. by apply Hch.
Qed.

Lemma _reint_hooks st : this_hooks (_reint st) = this_hooks st.
Proof. by rewrite _reint_unfold. Qed.

Lemma inv_reint st : inv (_reint st).
Proof.
  unfold _reint. apply inv_init. destruct st. simpl. apply coherent_flush.
Qed.

Lemma inv_construct config debug world persisted :
  persisted_ok persisted -> inv (construct config debug world persisted).
Proof.
  intros Hok. unfold construct. apply inv_init. simpl.
  destruct (truthy _); [exact Hok|by apply coherent_none].
Qed.

Lemma construct_hooks config debug world persisted :
  this_hooks (construct config debug world persisted) = None.
Proof.
  unfold construct, _init.
  destruct (getPlugins [] _) as [ps st1] eqn:Hps.
  assert (this_hooks st1 = None) as Hst1.
  { unfold getPlugins in Hps. destruct (cache_has _ _) in Hps.
    - by injection Hps as _ <-.
    - by injection Hps as _ <-. }
  destruct (getManifest (with_plugins ps st1)) as [m st2] eqn:Hm.
  assert (this_hooks st2 = None) as Hst2.
  { unfold getManifest in Hm. destruct st1. simpl in *. subst.
    destruct (cache_has _ _) in Hm; by injection Hm as _ <-. }
  by destruct st2.
Qed.
End Init.

(** ** Calls and reachable states *)

Section Calls.
Context {E : Externals}.
Implicit Types st : state E.

Lemma frame_read c st : inv st -> is_read c = true -> frame st (run_call c st).
Proof.
  intros [Hsynced _] Hread. destruct c; try done; simpl.
  - apply frame_getComponent.
  - apply frame_getComponentInstance.
  - apply frame_getHooks.
  - by apply frame_getManifest.
  - apply frame_refl.
  - by apply frame_getPlugins.
  - apply frame_refl.
  - apply frame_runHook.
  - apply frame_new_scope.
Qed.

Lemma inv_removePlugin name st : inv st -> inv (removePlugin name st).2.
Proof.
  intros Hinv. unfold removePlugin.
  destruct (getPlugin name st) as [plugin|]; [|done].
  destruct (String.eqb _ _); [done|]. apply inv_reint.
Qed.

Lemma inv_addPlugin name dest st : inv st -> inv (addPlugin name dest st).2.
Proof.
  intros Hinv. unfold addPlugin.
  pose proof (frame_getComponentInstance "core.plugin-installer" None no_opts st)
    as Hframe.
  destruct (getComponentInstance _ _ _ st) as [[e|installer] st1]; simpl in Hframe.
  - by apply (frame_inv st).
  - destruct (Plugin_fetch _ _ _ _ _) as [world [e|plugin]]; simpl.
    + apply inv_log_event, inv_with_world. by apply (frame_inv st).
    + apply inv_reint.
Qed.

Lemma inv_run_call c st : inv st -> inv (run_call c st).
Proof.
  intros Hinv. destruct (is_read c) eqn:Hread.
  - apply (frame_inv st); [by apply frame_read|done].
  - destruct c; try done; simpl.
    + by apply inv_addPlugin.
    + apply inv_reint.
    + by apply inv_removePlugin.
Qed.

Lemma inv_run_calls cs : forall st, inv st -> inv (run_calls cs st).
Proof.
  induction cs as [|c cs IH]; intros st Hinv; [done|].
  simpl. by apply IH, inv_run_call.
Qed.

Lemma frame_reads cs : forall st,
  inv st -> forallb is_read cs = true -> frame st (run_calls cs st).
Proof.
  induction cs as [|c cs IH]; intros st Hinv Hreads; [apply frame_refl|].
  simpl in *. apply andb_prop in Hreads as [Hread Hreads].
  eapply frame_trans; [by apply frame_read|].
  apply IH; [by apply inv_run_call|done].
Qed.

(** Nothing in the class assigns [this.hooks]. *)
Lemma run_call_hooks c st : inv st -> this_hooks (run_call c st) = this_hooks st.
Proof.
  intros Hinv. destruct (is_read c) eqn:Hread.
  - by apply frame_hooks, frame_read.
  - destruct c; try done; simpl.
    + unfold addPlugin.
      pose proof (frame_getComponentInstance "core.plugin-installer" None no_opts st)
        as Hframe.
      destruct (getComponentInstance _ _ _ st) as [[e|installer] st1];
        simpl in Hframe; apply frame_hooks in Hframe; [done|].
      destruct (Plugin_fetch _ _ _ _ _) as [world [e|plugin]]; simpl.
      * by destruct st1.
      * rewrite _reint_hooks. by destruct st1.
    + apply _reint_hooks.
    + unfold removePlugin. destruct (getPlugin name st); [|done].
      destruct (String.eqb _ _); [done|]. simpl.
      rewrite _reint_hooks. by destruct st.
Qed.

Lemma reachable_inv st : reachable st -> inv st.
Proof.
  induction 1 as [config debug world persisted Hok|st c _ IH].
  - by apply inv_construct.
  - by apply inv_run_call.
Qed.

Lemma reachable_hooks st : reachable st -> this_hooks st = None.
Proof.
  induction 1 as [config debug world persisted Hok|st c Hreach IH].
  - apply construct_hooks.
  - rewrite run_call_hooks; [done|]. by apply reachable_inv.
Qed.

Lemma reachable_run_calls cs : forall st, reachable st -> reachable (run_calls cs st).
Proof.
  induction cs as [|c cs IH]; intros st Hreach; [done|].
  simpl. apply IH. by constructor.
Qed.
End Calls.

(** ** The log between two states *)

Lemma events_since_app {E : Externals} (st st' : state E) evs :
  env_log st' = env_log st ++ evs -> events_since st st' = evs.
Proof. intros Hlog. unfold events_since. rewrite Hlog. apply drop_app_length. Qed.

Lemma events_since_same {E : Externals} (st st' : state E) :
  env_log st' = env_log st -> events_since st st' = [].
Proof. intros Hlog. apply events_since_app. by rewrite app_nil_r. Qed.

(** * The claims *)

(** ** Manifest composition *)

(** In every reachable state, and whenever nothing is cached under
    ['manifest'], the manifest [getManifest] returns is the one composed from
    [this.plugins]. *)
Lemma getManifest_content {E : Externals} (st : state E) :
  reachable st \/ cache_has "manifest" (this_cache st) = false ->
  live (getManifest st).1 = build_manifest (this_plugins st).
Proof.
  intros [Hreach|Hmiss].
  - apply getManifest_synced. by apply reachable_inv.
  - by rewrite (getManifest_miss _ Hmiss).
Qed.

(** C1. The manifest [getManifest] returns, when it builds one and in every
    reachable state, has one store per entry of [this.plugins], under the
    plugin's name, added going through the entries in reverse; so the store
    of the first-discovered plugin is added last, and a leaf that plugin
    declares (below a key that is not stripped) is the value the composed
    manifest has at that path, whatever the plugins discovered after it
    declare there. *)
Theorem getManifest_first_discovered_wins {E : Externals} (st : state E)
    name plugin rest key path v :
  reachable st \/ cache_has "manifest" (this_cache st) = false ->
  this_plugins st = (name, plugin) :: rest ->
  NoDup (obj_keys (this_plugins st)) ->
  key ∉ stripped_keys ->
  lookup_path (key :: path) (JObj (plugin_manifest plugin)) = Some v ->
  is_leaf v = true ->
  config_stores (live (getManifest st).1) = map manifest_entry (rev (this_plugins st)) /\
  Config_get_path (live (getManifest st).1) (key :: path) = Some v.
Proof.
  intros Hst Hps Hnodup Hkey Hlook Hleaf.
  rewrite (getManifest_content _ Hst).
  pose proof (build_manifest_stores _ Hnodup) as Hstores.
  split; [done|].
  rewrite Hps in Hstores. simpl in Hstores. rewrite map_app in Hstores.
  rewrite Hps.
  eapply Config_get_path_last; [exact Hstores| |done].
  simpl store_data. by apply sanitize_lookup_path.
Qed.

Lemma getManifest_first_discovered_wins_witness :
  cache_has "manifest" (this_cache Sim.uncached) = false /\
  Config_get_path (live (getManifest Sim.uncached).1) ["leaf"] = Some (JNum 1).
Proof.
  split; [reflexivity|].
  apply (getManifest_first_discovered_wins Sim.uncached
           "a" Sim.pluginA [("b", Sim.pluginB); ("c", Sim.pluginC)] "leaf" [] (JNum 1)).
  - right. reflexivity.
  - reflexivity.
  - apply (bool_decide_unpack _). vm_compute. reflexivity.
  - apply (bool_decide_unpack _). vm_compute. reflexivity.
  - reflexivity.
  - reflexivity.
Defined.

(** C6. Whatever the enabled plugins and their fragments, no store of the
    manifest [getManifest] returns, when it builds one and in every reachable
    state, has a [name], [description], [enabled] or [hidden] property of its
    own, and nothing is read from the manifest below these four keys. *)
Theorem getManifest_strips_fragment_fields {E : Externals} (st : state E)
    name store key :
  reachable st \/ cache_has "manifest" (this_cache st) = false ->
  (name, store) ∈ config_stores (live (getManifest st).1) ->
  key ∈ stripped_keys ->
  obj_get key (store_data store) = None /\
  forall path, Config_get_path (live (getManifest st).1) (key :: path) = None.
Proof.
  intros Hst Hin Hkey.
  rewrite (getManifest_content _ Hst) in *.
  split.
  - by apply (build_manifest_stripped (this_plugins st) name store key).
  - intros path. apply stripped_get_path; [apply build_manifest_stripped|done].
Qed.

Lemma persisted_ok_empty : persisted_ok ∅.
Proof.
  repeat split; intros v Hv; unfold cache_get in Hv; by rewrite lookup_empty in Hv.
Defined.

Lemma getManifest_strips_fragment_fields_witness :
  obj_get "name" (sanitize (plugin_manifest Sim.pluginB)) = None /\
  forall path,
    Config_get_path (live (getManifest Sim.caching).1) ("name" :: path) = None.
Proof.
  apply (getManifest_strips_fragment_fields Sim.caching "b"
           (Literal (sanitize (plugin_manifest Sim.pluginB))) "name").
  - left. apply reach_construct, persisted_ok_empty.
  - apply list_elem_of_lookup. exists 1%nat. vm_compute. reflexivity.
  - apply (bool_decide_unpack _). vm_compute. reflexivity.
Defined.

(** ** Invalidation *)

Lemma found_now_reint {E : Externals} (st : state E) :
  found_now (_reint st) = found_now st.
Proof. by rewrite _reint_unfold. Qed.

(** C2. [reinit] calls [flush] on the whole store first, which leaves no
    entry behind, then discovers the plugins and caches the three
    collections, then builds and caches the manifest.  When it returns,
    [this.plugins] is what discovery found and [this.manifest] is built from
    it; after any further calls a manifest obtained from [getManifest] is the
    one built from the current [this.plugins], and as long as these calls do
    not themselves reach [#_reint], [getPlugins()] and [getManifest()] both
    answer with what that discovery found. *)
Theorem reinit_flushes_then_recomputes {E : Externals} (st : state E) :
  let st' := reinit st in
  let found := found_now st in
  events_since st st' = reint_trace st (this_manifest st') /\
  (forall key, cache_get key (cache_flush (this_cache st)) = None) /\
  this_plugins st' = enabled found /\
  live (this_manifest st') = build_manifest (enabled found) /\
  forall cs,
    live (getManifest (run_calls cs st')).1
    = build_manifest (this_plugins (run_calls cs st')) /\
    (forallb is_read cs = true ->
     (getPlugins [] (run_calls cs st')).1 = enabled found /\
     live (getManifest (run_calls cs st')).1 = build_manifest (enabled found)).
Proof.
  intros st' found. subst st' found. unfold reinit.
  assert (this_plugins (_reint st) = enabled (found_now st)) as Hps.
  { by rewrite _reint_unfold. }
  split; [|split; [|split; [|split]]].
  - apply events_since_app. by rewrite _reint_unfold.
  - intros key. apply cache_get_flush.
  - exact Hps.
  - by rewrite _reint_unfold.
  - intros cs. pose proof (inv_reint st) as Hinv.
    pose proof (inv_run_calls cs _ Hinv) as [Hsynced _].
    split; [by apply getManifest_synced|].
    intros Hreads. pose proof (frame_reads cs _ Hinv Hreads) as Hframe.
    assert (this_plugins (run_calls cs (_reint st)) = enabled (found_now st)) as Hps'.
    { destruct Hframe as (_&_&_&_&->&_). exact Hps. }
    split.
    + rewrite (getPlugins_synced _ Hsynced).
      destruct (retains _); [done|].
      by rewrite (frame_found_now _ _ Hframe), found_now_reint.
    + by rewrite (getManifest_synced _ Hsynced), Hps'.
Qed.

Lemma reinit_flushes_then_recomputes_witness :
  let st' := reinit Sim.caching in
  let later := run_calls [CallGetHooks; CallGetPlugins []; CallGetManifest] st' in
  env_log st' !! length (env_log Sim.caching) = Some EvCacheFlush /\
  (getPlugins [] later).1 = Sim.disk /\
  live (getManifest later).1 = build_manifest Sim.disk.
Proof.
  pose proof (reinit_flushes_then_recomputes Sim.caching) as (_ & _ & _ & _ & Hlater).
  split; [vm_compute; reflexivity|].
  apply (Hlater [CallGetHooks; CallGetPlugins []; CallGetManifest]).
  reflexivity.
Defined.

(** ** Plugin management *)

Section PluginManagement.
Context {E : Externals}.
Implicit Types st : state E.

(** Resolving an instance leaves the cache alone and logs at most one
    construction. *)
Lemma getComponentInstance_effects component ctor opts st :
  let st1 := (getComponentInstance component ctor opts st).2 in
  this_cache st1 = this_cache st /\
  exists evs, env_log st1 = env_log st ++ evs /\
              (evs = [] \/ exists i, evs = [EvConstruct i]).
Proof.
  unfold getComponentInstance, get_component_instance.
  destruct (opts_cache opts ≫= _).
  { simpl. split; [done|]. exists []. split; [by rewrite app_nil_r|by left]. }
  destruct (Config_get _ _).
  2:{ simpl. split; [done|]. exists []. split; [by rewrite app_nil_r|by left]. }
  destruct st as [cfg cc id dbg ps m hs c w sc nx lg].
  destruct (opts_cache opts); simpl; (split; [done|]); eexists; split; eauto.
Qed.

Lemma _reint_log st :
  env_log (_reint st) = env_log st ++ reint_trace st (this_manifest (_reint st)).
Proof. by rewrite _reint_unfold. Qed.
End PluginManagement.

(** C3. [removePlugin(name)] fails with the NotFound error when
    [this.plugins] has no plugin of that name and with the Protected error
    when the plugin is of type ['core']; in both cases the state it leaves is
    the state it found, so nothing was flushed and nothing recomputed.
    Otherwise it calls the plugin's [remove], then runs [#_reint] (flush,
    discovery, manifest), and returns the plugin. *)
Theorem removePlugin_guards_then_removes {E : Externals} (st : state E) name :
  (getPlugin name st = None ->
   removePlugin name st = (inl (NotFound name), st)) /\
  (forall plugin,
     getPlugin name st = Some plugin -> plugin_type plugin = "core" ->
     removePlugin name st = (inl (Protected (plugin_name plugin)), st)) /\
  (forall plugin,
     getPlugin name st = Some plugin -> plugin_type plugin <> "core" ->
     let removed := with_world (Plugin_remove (env_world st) plugin) st in
     let st' := (removePlugin name st).2 in
     (removePlugin name st).1 = inr plugin /\
     events_since st st' = EvRemove plugin :: reint_trace removed (this_manifest st') /\
     this_plugins st' = enabled (found_now removed)).
Proof.
  unfold removePlugin. split; [|split].
  - by intros ->.
  - intros plugin -> ->. done.
  - intros plugin -> Htype.
    destruct (String.eqb_spec (plugin_type plugin) "core") as [Hcore|_]; [done|].
    simpl. split; [done|]. split.
    + apply events_since_app. rewrite _reint_log.
      destruct st. simpl. by rewrite <- app_assoc.
    + rewrite _reint_unfold. by destruct st.
Qed.

Lemma removePlugin_guards_then_removes_witness :
  removePlugin "zz" Sim.caching = (inl (NotFound "zz"), Sim.caching) /\
  removePlugin "a" Sim.caching = (inl (Protected "a"), Sim.caching) /\
  (removePlugin "b" Sim.caching).1 = inr Sim.pluginB.
Proof.
  pose proof (removePlugin_guards_then_removes Sim.caching "zz") as (Hzz & _ & _).
  pose proof (removePlugin_guards_then_removes Sim.caching "a") as (_ & Ha & _).
  pose proof (removePlugin_guards_then_removes Sim.caching "b") as (_ & _ & Hb).
  split; [|split].
  - apply Hzz. reflexivity.
  - apply (Ha Sim.pluginA); reflexivity.
  - apply (Hb Sim.pluginB); [reflexivity|discriminate].
Defined.

(** C4. When [addPlugin] fails, because the installer could not be resolved
    or because the fetch was rejected, the cache is what it was, no [flush]
    was called, and [this.plugins] and [this.manifest] are unchanged; a
    rejected fetch is the result of [addPlugin] as it is.  When [addPlugin]
    returns a plugin, it is the one the fetch returned, and [#_reint] ran
    after the fetch. *)
Theorem addPlugin_reinit_only_after_fetch {E : Externals} (st : state E) name dest :
  let st' := (addPlugin name dest st).2 in
  let dest' := match dest with
               | Some d => Some d
               | None => Config_get (this_config st) "plugin.global-install-dir"
               end in
  let channel := Config_get (this_config st) "core.release-channel" in
  (forall e,
     (addPlugin name dest st).1 = inl e ->
     this_cache st' = this_cache st /\
     count_events is_flush (events_since st st') = 0 /\
     this_plugins st' = this_plugins st /\
     this_manifest st' = this_manifest st) /\
  (forall installer st1 world e,
     getComponentInstance "core.plugin-installer" None no_opts st = (inr installer, st1) ->
     Plugin_fetch (env_world st1) name dest' channel installer = (world, inl e) ->
     (addPlugin name dest st).1 = inl e) /\
  (forall plugin,
     (addPlugin name dest st).1 = inr plugin ->
     exists installer st1 world,
       getComponentInstance "core.plugin-installer" None no_opts st = (inr installer, st1) /\
       Plugin_fetch (env_world st1) name dest' channel installer = (world, inr plugin) /\
       let fetched := log_event (EvFetch name dest' channel installer)
                        (with_world world st1) in
       st' = _reint fetched /\
       events_since st st'
       = events_since st st1
         ++ EvFetch name dest' channel installer
         :: reint_trace fetched (this_manifest st')).
Proof.
  intros st' dest' channel. subst st'. unfold addPlugin. fold dest' channel.
  pose proof (getComponentInstance_effects "core.plugin-installer" None no_opts st)
    as (Hcache & evs & Hlog & Hevs).
  pose proof (frame_getComponentInstance "core.plugin-installer" None no_opts st)
    as (_&_&_&_&Hps&Hm&_).
  destruct (getComponentInstance _ _ _ st) as [[e0|installer] st1]; simpl in *.
  - split; [|split]; [|done|done].
    intros e _. repeat split; try done.
    rewrite (events_since_app _ _ _ Hlog).
    destruct Hevs as [->|[i ->]]; reflexivity.
  - destruct (Plugin_fetch _ _ _ _ _) as [world [e0|plugin]] eqn:Hfetch; simpl.
    + split; [|split]; [| |done].
      * intros e _. destruct st1 as [cfg cc id dbg ps m hs c w sc nx lg]. simpl in *.
        repeat split; try done.
        rewrite (events_since_app _ _ (evs ++ [EvFetch name dest' channel installer]))
          by (by rewrite Hlog, <- app_assoc).
        destruct Hevs as [->|[i ->]]; reflexivity.
      * intros installer' st1' world' e Heq Hfetch'.
        injection Heq as <- <-. rewrite Hfetch in Hfetch'. by injection Hfetch' as _ ->.
    + split; [|split]; [done| |].
      * intros installer' st1' world' e Heq Hfetch'.
        injection Heq as <- <-. by rewrite Hfetch in Hfetch'.
      * intros plugin' Heq. injection Heq as <-.
        exists installer, st1, world. split; [done|]. split; [exact Hfetch|].
        split; [done|].
        rewrite (events_since_app _ _ _ Hlog).
        apply events_since_app. rewrite _reint_log.
        destruct st1 as [cfg cc id dbg ps m hs c w sc nx lg]. simpl in *.
        by rewrite Hlog, <- !app_assoc.
Qed.

Lemma addPlugin_reinit_only_after_fetch_witness :
  (addPlugin "broken" None Sim.caching).1 = inl (Rejection (JStr "E404")) /\
  this_cache (addPlugin "broken" None Sim.caching).2 = this_cache Sim.caching /\
  count_events is_flush
    (events_since Sim.caching (addPlugin "broken" None Sim.caching).2) = 0.
Proof.
  pose proof (addPlugin_reinit_only_after_fetch Sim.caching "broken" None)
    as (Hfail & Hsame & _).
  assert ((addPlugin "broken" None Sim.caching).1 = inl (Rejection (JStr "E404")))
    as Hres.
  { eapply Hsame; vm_compute; reflexivity. }
  split; [exact Hres|].
  destruct (Hfail _ Hres) as (Hcache & Hflush & _). by split.
Defined.

(** ** Cached getters *)

(** C5, as the specification words it, fails when caching is off: the
    second call runs discovery again. *)
Lemma getPlugins_rediscovers_uncached : ~ getPlugins_idempotent Sim.uncached.
Proof.
  unfold getPlugins_idempotent. intros [_ Hcount].
  vm_compute in Hcount. lia.
Qed.

(** C5, amended. With a cache that retains what it is given, two successive
    [getPlugins] calls return the same collection, the second leaves the
    state as it is, and discovery ran at most once; when the first call finds
    nothing cached it returns what discovery found enabled and the cache then
    holds the three collections under their keys.  With the no-op store each
    of the two calls runs discovery. *)
Theorem getPlugins_cached_once {E : Externals} (st : state E) options options' :
  let first := getPlugins options st in
  let second := getPlugins options' first.2 in
  (retains (this_cache st) = true ->
   second.1 = first.1 /\
   second.2 = first.2 /\
   count_events is_discover (events_since st second.2) <= 1 /\
   (cache_has "plugins.enabled" (this_cache st) = false ->
    let found := get_plugins (env_world st) (Config_get (this_config st) "plugin.dirs")
                   (discovery_options st options) in
    first.1 = enabled found /\
    cache_get "plugins.enabled" (this_cache first.2) = Some (CPlugins (enabled found)) /\
    cache_get "plugins.disabled" (this_cache first.2) = Some (CPlugins (disabled found)) /\
    cache_get "plugins.invalid" (this_cache first.2) = Some (CPlugins (invalids found)))) /\
  (retains (this_cache st) = false ->
   count_events is_discover (events_since st first.2) = 1 /\
   count_events is_discover (events_since st second.2) = 2).
Proof.
  intros first second. subst first second. split; intros Hr.
  - destruct (cache_has "plugins.enabled" (this_cache st)) eqn:Hhas.
    + apply cache_has_get in Hhas as [v Hv].
      rewrite (getPlugins_hit options _ _ Hv). simpl.
      rewrite (getPlugins_hit options' _ _ Hv). simpl.
      split; [done|]. split; [done|]. split; [|done].
      rewrite events_since_same by done. unfold count_events. simpl. lia.
    + rewrite (getPlugins_miss options _ Hhas). simpl.
      set (found := get_plugins _ _ _).
      assert (cache_get "plugins.enabled"
                (cache_set "plugins.invalid" (CPlugins (invalids found))
                   (cache_set "plugins.enabled" (CPlugins (enabled found))
                      (cache_set "plugins.disabled" (CPlugins (disabled found))
                         (this_cache st))))
              = Some (CPlugins (enabled found))) as Hen.
      { rewrite cache_get_set_ne by done.
        by rewrite cache_get_set_eq by (by rewrite retains_set). }
      erewrite getPlugins_hit by (simpl; exact Hen). simpl.
      split; [done|]. split; [done|]. split.
      * erewrite events_since_app by (simpl; reflexivity). simpl.
        unfold count_events. simpl. lia.
      * intros _. split; [done|]. split; [exact Hen|]. split.
        -- rewrite !cache_get_set_ne by done. by rewrite cache_get_set_eq.
        -- by rewrite cache_get_set_eq by (by rewrite !retains_set).
  - rewrite (getPlugins_miss options st) by (by apply cache_has_none). simpl.
    split.
    + erewrite events_since_app by (simpl; reflexivity). reflexivity.
    + rewrite getPlugins_miss
        by (simpl; apply cache_has_none; by rewrite !retains_set).
      simpl. rewrite <- app_assoc.
      erewrite events_since_app by (simpl; reflexivity). reflexivity.
Qed.

Lemma getPlugins_cached_once_witness :
  retains (this_cache Sim.flushed) = true /\
  (getPlugins [] (getPlugins [] Sim.flushed).2).1 = (getPlugins [] Sim.flushed).1 /\
  count_events is_discover
    (events_since Sim.flushed (getPlugins [] (getPlugins [] Sim.flushed).2).2) <= 1.
Proof.
  split; [reflexivity|].
  pose proof (getPlugins_cached_once Sim.flushed [] []) as [Hretains _].
  destruct (Hretains eq_refl) as (Hsame & _ & Hcount & _).
  split; [exact Hsame|exact Hcount].
Defined.

(** C10, as worded, fails when caching is off: a later [getHooks] runs the
    discovery branch again. *)
Lemma getHooks_rediscovers_uncached : ~ hooks_cached_after_first_call Sim.uncached.
Proof.
  unfold hooks_cached_after_first_call. intros (_ & _ & Hev).
  vm_compute in Hev. discriminate.
Qed.

Lemma frame_hooks_cached {E : Externals} (st st' : state E) :
  frame st st' ->
  cache_get "hooks" (this_cache st) = Some (CHooks []) ->
  cache_get "hooks" (this_cache st') = Some (CHooks []).
Proof.
  intros (_&_&_&_&_&_&_&_&[-> | ->]) Hv; [done|].
  destruct (retains (this_cache st)) eqn:Hr.
  - by rewrite cache_get_set_eq.
  - by rewrite cache_get_none in Hv.
Qed.

(** C10, amended. In every reachable state [getHooks] returns the empty
    list.  When nothing is cached under ['hooks'] it logs
    the discovery and hands the empty list to the cache under that key.  With
    a cache that retains what it is given, [getHooks] called after any calls
    that do not reach [#_reint] returns the cached empty list and changes
    nothing; with the no-op store every call runs the branch again. *)
Theorem getHooks_empty_and_cached {E : Externals} (st : state E) :
  reachable st ->
  let first := getHooks st in
  first.1 = [] /\
  (cache_has "hooks" (this_cache st) = false ->
   events_since st first.2 =
   [EvDebug (this_debug st) "running %o hooks discovery..." (this_id st);
    EvCacheSet "hooks" (CHooks [])]) /\
  (retains (this_cache st) = true ->
   forall cs, forallb is_read cs = true ->
     getHooks (run_calls cs first.2) = ([], run_calls cs first.2)) /\
  (retains (this_cache st) = false ->
   events_since first.2 (getHooks first.2).2 =
   [EvDebug (this_debug st) "running %o hooks discovery..." (this_id st);
    EvCacheSet "hooks" (CHooks [])]).
Proof.
  intros Hreach first. subst first.
  pose proof (reachable_inv _ Hreach) as Hinv. pose proof Hinv as [_ Hempty].
  destruct (cache_has "hooks" (this_cache st)) eqn:Hhas.
  - apply cache_has_get in Hhas as [v Hv].
    pose proof (Hempty v Hv) as ->.
    rewrite (getHooks_hit _ _ Hv). simpl.
    split; [done|]. split; [done|]. split.
    + intros _ cs Hreads.
      pose proof (frame_reads cs _ Hinv Hreads) as Hframe.
      by rewrite (getHooks_hit _ _ (frame_hooks_cached _ _ Hframe Hv)).
    + intros Hr. by rewrite cache_get_none in Hv.
  - rewrite (getHooks_miss _ Hhas). simpl.
    split; [done|]. split; [|split].
    + intros _. by apply events_since_app.
    + intros Hr cs Hreads.
      set (st1 := mkState _ _ _ _ _ _ _ _ _ _ _ _).
      assert (frame st st1) as Hst1 by (repeat split; by right).
      assert (cache_get "hooks" (this_cache st1) = Some (CHooks [])) as Hv.
      { simpl. by rewrite cache_get_set_eq. }
      pose proof (frame_reads cs st1 (frame_inv _ _ Hst1 Hinv) Hreads) as Hframe.
      by rewrite (getHooks_hit _ _ (frame_hooks_cached _ _ Hframe Hv)).
    + intros Hr. rewrite getHooks_miss by (simpl; by apply cache_has_none; rewrite retains_set).
      by apply events_since_app.
Qed.

Lemma getHooks_empty_and_cached_witness :
  (getHooks Sim.caching).1 = [] /\
  getHooks (run_calls [CallGetManifest; CallGetPlugins []] (getHooks Sim.caching).2)
  = ([], run_calls [CallGetManifest; CallGetPlugins []] (getHooks Sim.caching).2).
Proof.
  pose proof (getHooks_empty_and_cached Sim.caching
                (reach_construct _ _ _ _ persisted_ok_empty))
    as (Hfirst & _ & Hlater & _).
  split; [exact Hfirst|].
  apply Hlater; reflexivity.
Defined.

(** C7, as worded, fails on the path that builds the manifest: what
    [getManifest] returns there is the very object it handed to the cache. *)
Lemma getManifest_returns_cached_object : ~ returns_fresh_wrapper Sim.uncached.
Proof.
  unfold returns_fresh_wrapper. intros [Hfresh _]. apply Hfresh.
  apply list_elem_of_lookup. exists 1%nat. vm_compute. reflexivity.
Qed.

(** C7, amended.  When a manifest is cached, [getManifest] returns a new
    [Config], under the next fresh identity, revived from the cached value,
    and leaves cache and log alone.  When none is cached, it builds a
    [Config], hands that very object to the cache under ['manifest'], and
    returns it; with a retaining cache the next call then returns another
    object with the same content. *)
Theorem getManifest_wraps_only_on_hit {E : Externals} (st : state E) :
  (forall v,
     cache_get "manifest" (this_cache st) = Some v ->
     getManifest st = (mkConfigObj (env_next st) (Config_revive (Some v)), (new_identity st).2)) /\
  (cache_has "manifest" (this_cache st) = false ->
   let built := getManifest st in
   built.1 = mkConfigObj (env_next st) (build_manifest (this_plugins st)) /\
   events_since st built.2 =
   [EvDebug (this_debug st) "running %o manifest construction..." (this_id st);
    EvCacheSet "manifest" (CConfig built.1)] /\
   (retains (this_cache st) = true ->
    cache_get "manifest" (this_cache built.2) = Some (CConfig built.1) /\
    oid (getManifest built.2).1 = S (oid built.1) /\
    live (getManifest built.2).1 = live built.1)).
Proof.
  split.
  - intros v Hv. by apply getManifest_hit.
  - intros Hmiss built. subst built.
    rewrite (getManifest_miss _ Hmiss). simpl.
    split; [done|]. split; [by apply events_since_app|].
    intros Hr.
    assert (cache_get "manifest"
              (cache_set "manifest"
                 (CConfig (mkConfigObj (env_next st) (build_manifest (this_plugins st))))
                 (this_cache st))
            = Some (CConfig (mkConfigObj (env_next st)
                               (build_manifest (this_plugins st))))) as Hv
      by (by rewrite cache_get_set_eq).
    split; [exact Hv|].
    by erewrite getManifest_hit by (simpl; exact Hv).
Qed.

Lemma getManifest_wraps_only_on_hit_witness :
  oid (getManifest (getManifest Sim.flushed).2).1 = S (oid (getManifest Sim.flushed).1) /\
  live (getManifest (getManifest Sim.flushed).2).1 = live (getManifest Sim.flushed).1.
Proof.
  pose proof (getManifest_wraps_only_on_hit Sim.flushed) as [_ Hmiss].
  destruct (Hmiss eq_refl) as (_ & _ & Hnext).
  destruct (Hnext eq_refl) as (_ & Hoid & Hlive).
  split; [exact Hoid|exact Hlive].
Defined.

(** ** Hooks *)

Lemma hook_context_eq {E : Externals} (st : state E) :
  hook_context st
  = if String.eqb "product" (this_id st) then ["product"] else [this_id st; "product"].
Proof.
  unfold hook_context.
  change (obj_set (this_id st) () []) with [(this_id st, ())].
  change (obj_set "product" () [(this_id st, ())])
    with (if String.eqb "product" (this_id st)
          then [("product", ())] else [(this_id st, ()); ("product", ())]).
  by destruct (String.eqb "product" (this_id st)).
Qed.

(** What [runHook] hands to the hook runner: the event, the payload,
    [this.hooks], a context with [this] under [this.id] and under
    ['product'], and the logger. *)
Lemma runHook_arguments {E : Externals} (st : state E) event data :
  events_since st (runHook event data st).2
  = [EvRunHook event data (this_hooks st) (hook_context st) (this_debug st)] /\
  this_id st ∈ hook_context st /\
  "product" ∈ hook_context st.
Proof.
  split; [|split].
  - apply events_since_app. by destruct st.
  - rewrite hook_context_eq.
    destruct (String.eqb_spec "product" (this_id st)) as [<-|_];
      apply elem_of_cons; by left.
  - rewrite hook_context_eq.
    destruct (String.eqb_spec "product" (this_id st)) as [_|_].
    + apply elem_of_cons; by left.
    + apply elem_of_cons; right. apply elem_of_cons; by left.
Qed.

(** C8, at a freshly constructed [Product] whose hook list has been computed
    and cached by [getHooks]: the list is empty and cached, and what
    [runHook] passes in its place is [this.hooks], which is [undefined]. *)
Theorem runHook_passes_unassigned_hooks :
  let cached := getHooks Sim.caching in
  cached.1 = [] /\
  cache_get "hooks" (this_cache cached.2) = Some (CHooks []) /\
  events_since cached.2 (runHook "post-install" JNull cached.2).2
  = [EvRunHook "post-install" JNull None ["lando"; "product"] Product_debug].
Proof. vm_compute. repeat split. Qed.

(** In every reachable state the list [getHooks] returns is empty, and what
    [runHook] passes as hooks is [undefined]. *)
Lemma reachable_runHook_hooks {E : Externals} (st : state E) event data :
  reachable st ->
  (getHooks st).1 = [] /\
  events_since st (runHook event data st).2
  = [EvRunHook event data None (hook_context st) (this_debug st)].
Proof.
  intros Hreach. split.
  - pose proof (reachable_inv _ Hreach) as [_ Hempty].
    destruct (cache_has "hooks" (this_cache st)) eqn:Hhas.
    + apply cache_has_get in Hhas as [v Hv]. pose proof (Hempty v Hv) as ->.
      by rewrite (getHooks_hit _ _ Hv).
    + by rewrite (getHooks_miss _ Hhas).
  - destruct (runHook_arguments st event data) as [-> _].
    by rewrite (reachable_hooks _ Hreach).
Qed.

(** ** Component instances *)


Section Scopes.
Context {E : Externals}.
Implicit Types st : state E.

Lemma scope_lookup_store scope key c st :
  scope_lookup scope key (scope_store scope key c st) = Some c.
Proof.
  unfold scope_lookup, scope_store. destruct st. simpl.
  rewrite lookup_insert_eq. simpl. apply lookup_insert_eq.
Qed.

Lemma scope_lookup_log_event scope key e st :
  scope_lookup scope key (log_event e st) = scope_lookup scope key st.
Proof. by destruct st. Qed.

End Scopes.



(** * Further properties *)

(** ** Discovery options *)

Lemma obj_get_set_ne {A : Type} k k' (v : A) o :
  k <> k' -> obj_get k (obj_set k' v o) = obj_get k o.
Proof.
  intros Hne. induction o as [|[k0 v0] o IH]; simpl.
  - by destruct (String.eqb_spec k k').
  - destruct (String.eqb_spec k' k0) as [Heq|Hne']; simpl.
    + subst k0. by destruct (String.eqb_spec k k').
    + by destruct (String.eqb_spec k k0).
Qed.

Lemma obj_get_absent {A : Type} k (o : list (string * A)) :
  k ∉ obj_keys o -> obj_get k o = None.
Proof.
  induction o as [|[k0 v0] o IH]; simpl; [done|].
  intros Hnotin. apply not_elem_of_cons in Hnotin as [Hne Hnotin].
  destruct (String.eqb_spec k k0); [done|]. by apply IH.
Qed.

(** [{...a, ...b}] read at a key: [b]'s property when it has one, else
    [a]'s. *)
Lemma obj_get_spread {A : Type} k (b : list (string * A)) : forall a,
  NoDup (obj_keys b) ->
  obj_get k (obj_spread a b)
  = match obj_get k b with Some v => Some v | None => obj_get k a end.
Proof.
  induction b as [|[k0 v0] b IH]; intros a Hnodup; [done|].
  simpl in Hnodup. apply NoDup_cons in Hnodup as [Hk0 Hnodup].
  unfold obj_spread in *. simpl. rewrite IH by done.
  destruct (String.eqb_spec k k0) as [->|Hne].
  - rewrite (obj_get_absent _ _ Hk0). apply obj_get_set_eq.
  - destruct (obj_get k b); [done|]. by apply obj_get_set_ne.
Qed.

(** X1. When [getPlugins(options)] finds nothing cached, discovery is called
    once, with the configured plugin directories and with options in which
    every property the caller gave stands and every other one has its
    default (release channel, configuration, [loadOpts], type ['global']);
    what discovery found enabled is returned. *)
Theorem getPlugins_options_override {E : Externals} (st : state E) options key :
  cache_has "plugins.enabled" (this_cache st) = false ->
  NoDup (obj_keys options) ->
  exists opts,
    filter (fun e => is_discover e = true) (events_since st (getPlugins options st).2)
    = [EvDiscover (Config_get (this_config st) "plugin.dirs") opts] /\
    (getPlugins options st).1
    = enabled (get_plugins (env_world st) (Config_get (this_config st) "plugin.dirs") opts) /\
    obj_get key opts
    = match obj_get key options with
      | Some v => Some v
      | None => obj_get key (discovery_defaults st)
      end.
Proof.
  intros Hmiss Hnodup. exists (discovery_options st options).
  split; [|split].
  - rewrite (getPlugins_miss options _ Hmiss). simpl.
    erewrite events_since_app by (simpl; reflexivity). reflexivity.
  - by rewrite (getPlugins_miss options _ Hmiss).
  - unfold discovery_options. by apply (obj_get_spread key options (discovery_defaults st)).
Qed.

Lemma getPlugins_options_override_witness :
  exists opts,
    filter (fun e => is_discover e = true)
      (events_since Sim.flushed
         (getPlugins [("type", OptVal (Some (JStr "app")))] Sim.flushed).2)
    = [EvDiscover (Some (JArr [JStr "/plugins"])) opts] /\
    obj_get "type" opts = Some (OptVal (Some (JStr "app"))) /\
    obj_get "loadOpts" opts = Some OptThis.
Proof.
  destruct (getPlugins_options_override Sim.flushed
              [("type", OptVal (Some (JStr "app")))] "type")
    as (opts & Hev & _ & Htype).
  - reflexivity.
  - apply NoDup_cons. split; [apply not_elem_of_nil|apply NoDup_nil_2].
  - destruct (getPlugins_options_override Sim.flushed
                [("type", OptVal (Some (JStr "app")))] "loadOpts")
      as (opts' & Hev' & _ & Hload).
    + reflexivity.
    + apply NoDup_cons. split; [apply not_elem_of_nil|apply NoDup_nil_2].
    + exists opts. split; [exact Hev|]. split; [exact Htype|].
      rewrite Hev in Hev'. injection Hev' as <-. exact Hload.
Defined.

(** ** Sanitized fragments *)

Lemma obj_get_clone_fields_None k fs :
  obj_get k fs = None -> obj_get k (clone_fields fs) = None.
Proof.
  induction fs as [|[k' y] fs IH]; simpl; [done|].
  destruct (String.eqb_spec k k') as [->|Hne]; [done|]. intros Hget.
  destruct y; simpl; try (destruct (String.eqb_spec k k'); [done|]); by apply IH.
Qed.

Lemma obj_get_clone_fields_undef k fs :
  NoDup (obj_keys fs) -> obj_get k fs = Some JUndef ->
  obj_get k (clone_fields fs) = None.
Proof.
  induction fs as [|[k' y] fs IH]; simpl; [done|].
  intros Hnodup. apply NoDup_cons in Hnodup as [Hk' Hnodup].
  destruct (String.eqb_spec k k') as [->|Hne].
  - intros [= ->]. simpl. apply obj_get_clone_fields_None. by apply obj_get_absent.
  - intros Hget.
    destruct y; simpl; try (destruct (String.eqb_spec k k'); [done|]); by apply IH.
Qed.

(** X2. Of a fragment, the sanitized copy keeps every property other than
    the four stripped ones, as a deep copy: a defined value is there as its
    JSON clone, a property that is missing or holds [undefined] is missing.
    The four keys are deleted at the top of the fragment only: a leaf below
    a kept key is still there, whatever the names on the path to it. *)
Theorem sanitize_keeps_other_fields (fragment : jsobj) key :
  key ∉ stripped_keys ->
  NoDup (obj_keys fragment) ->
  obj_get key (sanitize fragment)
  = match obj_get key fragment with
    | Some JUndef | None => None
    | Some x => Some (json_clone x)
    end /\
  forall path v,
    lookup_path (key :: path) (JObj fragment) = Some v -> is_leaf v = true ->
    lookup_path (key :: path) (JObj (sanitize fragment)) = Some v.
Proof.
  intros Hkey Hnodup. split.
  - rewrite sanitize_keeps by done.
    destruct (obj_get key fragment) as [x|] eqn:Hget.
    + destruct x; first (by apply obj_get_clone_fields_undef);
        by rewrite (obj_get_clone_fields _ _ _ Hget).
    + by apply obj_get_clone_fields_None.
  - intros path v Hlook Hleaf. by apply sanitize_lookup_path.
Qed.

Lemma sanitize_keeps_other_fields_witness :
  let fragment := [("name", JStr "top");
                   ("registry", JObj [("name", JStr "nested")]);
                   ("gone", JUndef)] in
  obj_get "registry" (sanitize fragment) = Some (JObj [("name", JStr "nested")]) /\
  lookup_path ["registry"; "name"] (JObj (sanitize fragment)) = Some (JStr "nested").
Proof.
  intros fragment.
  assert ("registry" ∉ stripped_keys) as Hkey
    by (apply (bool_decide_unpack _); vm_compute; reflexivity).
  assert (NoDup (obj_keys fragment)) as Hnodup
    by (apply (bool_decide_unpack _); vm_compute; reflexivity).
  destruct (sanitize_keeps_other_fields fragment "registry" Hkey Hnodup)
    as [Hget Hpath].
  split; [exact Hget|]. apply Hpath; reflexivity.
Defined.

(** ** Serializable stores *)

(** Induction on values, through arrays and objects. *)
Lemma jsval_nested_ind (P : jsval -> Prop) :
  P JUndef -> P JNull -> (forall b, P (JBool b)) -> (forall n, P (JNum n)) ->
  (forall s, P (JStr s)) ->
  (forall xs, Forall P xs -> P (JArr xs)) ->
  (forall fs, Forall (fun kv => P kv.2) fs -> P (JObj fs)) ->
  forall v, P v.
Proof.
  intros Hundef Hnull Hbool Hnum Hstr Harr Hobj.
  fix IH 1. intros [| |b|n|s|xs|fs].
  - exact Hundef.
  - exact Hnull.
  - apply Hbool.
  - apply Hnum.
  - apply Hstr.
  - apply Harr. induction xs as [|x xs IHxs]; constructor; [apply IH|exact IHxs].
  - apply Hobj. induction fs as [|[k x] fs IHfs]; constructor; [apply IH|exact IHfs].
Qed.

Lemma json_clean_arr xs : json_clean (JArr xs) = clean_items xs.
Proof. reflexivity. Qed.

Lemma json_clean_obj fs : json_clean (JObj fs) = clean_fields fs.
Proof. reflexivity. Qed.

(** What the round trip gives for a defined value is clean. *)
Lemma json_clone_clean v : v <> JUndef -> json_clean (json_clone v) = true.
Proof.
  induction v as [| | | | |xs IH|fs IH] using jsval_nested_ind; try done; intros _.
  - change (json_clone (JArr xs))
      with (JArr (map (fun x => match x with JUndef => JNull | _ => json_clone x end) xs)).
    rewrite json_clean_arr.
    induction IH as [|x xs Hx _ IHxs]; [done|]. simpl.
    rewrite IHxs, andb_true_r. destruct x; try done; by apply Hx.
  - rewrite json_clone_obj, json_clean_obj.
    induction IH as [|[k x] fs Hx _ IHfs]; [done|]. simpl in *.
    destruct x; try done; simpl; rewrite IHfs, andb_true_r; by apply Hx.
Qed.

(** The round trip leaves a clean value as it is. *)
Lemma json_clone_fixed v : json_clean v = true -> json_clone v = v.
Proof.
  induction v as [| | | | |xs IH|fs IH] using jsval_nested_ind; try done.
  - rewrite json_clean_arr. intros Hclean.
    change (json_clone (JArr xs))
      with (JArr (map (fun x => match x with JUndef => JNull | _ => json_clone x end) xs)).
    f_equal. induction IH as [|x xs Hx _ IHxs]; [done|]. simpl in *.
    apply andb_prop in Hclean as [Hcx Hcxs].
    rewrite IHxs by done. f_equal. destruct x; try done; by apply Hx.
  - rewrite json_clean_obj, json_clone_obj. intros Hclean. f_equal.
    induction IH as [|[k x] fs Hx _ IHfs]; [done|]. simpl in *.
    apply andb_prop in Hclean as [Hcx Hcxs].
    destruct x; try done; simpl; rewrite IHfs by done; f_equal; f_equal; by apply Hx.
Qed.

Lemma clean_fields_clone fs : clean_fields (clone_fields fs) = true.
Proof.
  assert (json_clean (json_clone (JObj fs)) = true) as Hclean
    by (by apply json_clone_clean).
  by rewrite json_clone_obj, json_clean_obj in Hclean.
Qed.

Lemma clean_fields_delete k fs :
  clean_fields fs = true -> clean_fields (obj_delete k fs) = true.
Proof.
  induction fs as [|[k' x] fs IH]; simpl; [done|]. intros Hclean.
  apply andb_prop in Hclean as [Hx Hfs].
  destruct (String.eqb k k'); simpl; [by apply IH|]. by rewrite Hx, IH.
Qed.

(** X3. Every store of a composed manifest is serializable as it is: no
    [undefined] is left anywhere in it, at any depth, and a further
    [JSON.parse(JSON.stringify(...))] of the store gives the store back. *)
Theorem build_manifest_stores_serializable (plugins : Plugins) name store :
  (name, store) ∈ config_stores (build_manifest plugins) ->
  json_clean (JObj (store_data store)) = true /\
  json_clone (JObj (store_data store)) = JObj (store_data store).
Proof.
  intros Hin. apply build_manifest_elem in Hin as (np & _ & [= -> ->]).
  assert (json_clean (JObj (sanitize (plugin_manifest np.2))) = true) as Hclean.
  { rewrite json_clean_obj. unfold sanitize.
    do 4 apply clean_fields_delete. apply clean_fields_clone. }
  split; [exact Hclean|]. by apply json_clone_fixed.
Qed.

Lemma build_manifest_stores_serializable_witness :
  json_clean (JObj (sanitize (plugin_manifest Sim.pluginB))) = true /\
  json_clone (JObj (sanitize (plugin_manifest Sim.pluginB)))
  = JObj (sanitize (plugin_manifest Sim.pluginB)).
Proof.
  apply (build_manifest_stores_serializable Sim.disk "b"
           (Literal (sanitize (plugin_manifest Sim.pluginB)))).
  apply list_elem_of_lookup. exists 1%nat. vm_compute. reflexivity.
Defined.

(** ** Invalidation, continued *)

Lemma cache_flush_retains c c' :
  retains c' = retains c -> cache_flush c' = cache_flush c.
Proof. by destruct c, c'. Qed.

Lemma retains_reint {E : Externals} (st : state E) :
  retains (this_cache (_reint st)) = retains (this_cache st).
Proof. rewrite _reint_unfold. simpl. by rewrite !retains_set, retains_flush. Qed.

(** X4. A second [reinit] right after a first one discovers with the same
    directories and options and ends with the same [this.plugins], a
    manifest of the same content under the next identity, and the same cache
    entries under every key but ['manifest'], where the new manifest object
    stands. *)
Theorem reinit_twice {E : Externals} (st : state E) :
  let once := reinit st in
  let twice := reinit once in
  events_since once twice = reint_trace once (this_manifest twice) /\
  found_now once = found_now st /\
  this_plugins twice = this_plugins once /\
  live (this_manifest twice) = live (this_manifest once) /\
  oid (this_manifest twice) = S (oid (this_manifest once)) /\
  (forall key, key <> "manifest" ->
     cache_get key (this_cache twice) = cache_get key (this_cache once)) /\
  (retains (this_cache st) = true ->
   cache_get "manifest" (this_cache twice) = Some (CConfig (this_manifest twice))).
Proof.
  intros once twice. subst once twice. unfold reinit.
  pose proof (found_now_reint st) as Hfound.
  split; [apply events_since_app, _reint_log|].
  split; [exact Hfound|].
  rewrite (_reint_unfold (_reint st)). rewrite Hfound.
  rewrite (cache_flush_retains (this_cache st)) by apply retains_reint.
  rewrite (_reint_unfold st). simpl.
  split; [done|]. split; [done|]. split; [done|]. split.
  - intros key Hkey. by rewrite !(cache_get_set_ne key "manifest").
  - intros Hr. rewrite cache_get_set_eq; [done|].
    by rewrite !retains_set, retains_flush.
Qed.

Lemma reinit_twice_witness :
  this_plugins (reinit (reinit Sim.caching)) = this_plugins (reinit Sim.caching) /\
  cache_get "manifest" (this_cache (reinit (reinit Sim.caching)))
  = Some (CConfig (this_manifest (reinit (reinit Sim.caching)))).
Proof.
  pose proof (reinit_twice Sim.caching) as (_ & _ & Hps & _ & _ & _ & Hcached).
  split; [exact Hps|]. apply Hcached. reflexivity.
Defined.

(** ** Component caches *)

Section ComponentCaches.
Context {E : Externals}.
Implicit Types st : state E.




End ComponentCaches.



(** ** Plugin management, continued *)

(** X6. The installer is resolved before the fetch is called: when
    [getComponentInstance('core.plugin-installer')] fails, [addPlugin] ends
    with that error without having called [Plugin.fetch] or [flush], and
    what is installed is what was. *)
Theorem addPlugin_needs_installer {E : Externals} (st : state E) name dest e :
  (getComponentInstance "core.plugin-installer" None no_opts st).1 = inl e ->
  let failed := addPlugin name dest st in
  failed.1 = inl e /\
  count_events is_fetch (events_since st failed.2) = 0 /\
  count_events is_flush (events_since st failed.2) = 0 /\
  env_world failed.2 = env_world st /\
  this_plugins failed.2 = this_plugins st.
Proof.
  intros Hfail failed. subst failed. unfold addPlugin.
  pose proof (getComponentInstance_effects "core.plugin-installer" None no_opts st)
    as (_ & evs & Hlog & Hevs).
  pose proof (frame_getComponentInstance "core.plugin-installer" None no_opts st)
    as (_&_&_&_&Hps&_&_&Hworld&_).
  destruct (getComponentInstance _ _ _ st) as [[e0|installer] st1]; simpl in *;
    [|done].
  injection Hfail as ->.
  rewrite (events_since_app _ _ _ Hlog).
  split; [done|]. destruct Hevs as [->|[i ->]]; by repeat split.
Qed.

Lemma addPlugin_needs_installer_witness :
  (addPlugin "d" None Sim2.bare).1 = inl (ComponentNotFound "core.plugin-installer") /\
  count_events is_fetch (events_since Sim2.bare (addPlugin "d" None Sim2.bare).2) = 0.
Proof.
  pose proof (addPlugin_needs_installer Sim2.bare "d" None
                (ComponentNotFound "core.plugin-installer")) as Hfail.
  destruct Hfail as (Hres & Hfetch & _); [vm_compute; reflexivity|].
  split; [exact Hres|exact Hfetch].
Defined.

Lemma getPlugin_reint {E : Externals} (st : state E) name :
  getPlugin name (_reint st)
  = obj_get (parse_package_name name) (enabled (found_now st)).
Proof. unfold getPlugin. by rewrite _reint_unfold. Qed.

(** X7. [removePlugin] looks the name up in [this.plugins], the collection
    discovery found enabled at the last [#_init], and nowhere else.  So right
    after a [reinit], a name discovery did not list as enabled (not
    installed, or listed as disabled or invalid) fails with NotFound and the
    state stays as it is; and a second [removePlugin] of a plugin that
    discovery no longer lists after its removal fails the same way. *)
Theorem removePlugin_only_enabled {E : Externals} (st : state E) name :
  (obj_get (parse_package_name name) (enabled (found_now st)) = None ->
   removePlugin name (reinit st) = (inl (NotFound name), reinit st)) /\
  (forall plugin,
     getPlugin name st = Some plugin -> plugin_type plugin <> "core" ->
     obj_get (parse_package_name name)
       (enabled (found_now (with_world (Plugin_remove (env_world st) plugin) st)))
     = None ->
     (removePlugin name st).1 = inr plugin /\
     removePlugin name (removePlugin name st).2
     = (inl (NotFound name), (removePlugin name st).2)).
Proof.
  split.
  - intros Hnone. unfold reinit, removePlugin. by rewrite getPlugin_reint, Hnone.
  - intros plugin Hget Htype Hnone.
    unfold removePlugin at 1 3 4. rewrite Hget.
    destruct (String.eqb_spec (plugin_type plugin) "core"); [done|]. simpl.
    split; [done|].
    unfold removePlugin. rewrite getPlugin_reint.
    replace (found_now (log_event (EvRemove plugin)
                          (with_world (Plugin_remove (env_world st) plugin) st)))
      with (found_now (with_world (Plugin_remove (env_world st) plugin) st))
      by (by destruct st).
    by rewrite Hnone.
Qed.

Lemma removePlugin_only_enabled_witness :
  (removePlugin "b" Sim.caching).1 = inr Sim.pluginB /\
  removePlugin "b" (removePlugin "b" Sim.caching).2
  = (inl (NotFound "b"), (removePlugin "b" Sim.caching).2).
Proof.
  pose proof (removePlugin_only_enabled Sim.caching "b") as [_ Htwice].
  apply (Htwice Sim.pluginB); [reflexivity|discriminate|vm_compute; reflexivity].
Defined.

(** ** [#_init], in outline *)



(** ** The constructor *)





(** ** Identities *)

Section Identities.
Context {E : Externals}.
Implicit Types st : state E.







End Identities.



(** ** Hooks, continued *)

(** X11. [runHook] returns what the hook runner returns and changes nothing
    but the log, which gains the one call of the runner: the cache, the
    plugins, the manifest and the component scopes are what they were.  The
    context it passes has [this] under [this.id] and under ['product'], in
    this order; when the id is itself ['product'] the two are one property. *)
Theorem runHook_context {E : Externals} (st : state E) event data :
  let ran := runHook event data st in
  ran.1 = run_hook event data (this_hooks st) (hook_context st) (this_debug st) /\
  (this_config ran.2 = this_config st /\
   this_componentsCache ran.2 = this_componentsCache st /\
   this_id ran.2 = this_id st /\
   this_debug ran.2 = this_debug st /\
   this_plugins ran.2 = this_plugins st /\
   this_manifest ran.2 = this_manifest st /\
   this_hooks ran.2 = this_hooks st /\
   this_cache ran.2 = this_cache st /\
   env_world ran.2 = env_world st /\
   env_scopes ran.2 = env_scopes st /\
   env_next ran.2 = env_next st /\
   env_log ran.2
   = env_log st
     ++ [EvRunHook event data (this_hooks st) (hook_context st) (this_debug st)]) /\
  (this_id st <> "product" -> hook_context st = [this_id st; "product"]) /\
  (this_id st = "product" -> hook_context st = ["product"]).
Proof.
  intros ran. subst ran. split; [by destruct st|]. split.
  - by destruct st.
  - rewrite hook_context_eq.
    destruct (String.eqb_spec "product" (this_id st)) as [Heq|Hne]; split; done.
Qed.

Lemma runHook_context_witness :
  hook_context Sim.caching = ["lando"; "product"].
Proof.
  pose proof (runHook_context Sim.caching "e" JNull) as (_ & _ & Hctx & _).
  apply Hctx. discriminate.
Defined.

(** ** The log of a call sequence *)

Lemma count_events_app p l1 l2 :
  count_events p (l1 ++ l2) = count_events p l1 + count_events p l2.
Proof. unfold count_events. by rewrite filter_app, length_app. Qed.

Section Logs.
Context {E : Externals}.
Implicit Types st : state E.

Lemma tidy_nil n : tidy n [].
Proof. split; [done|]. unfold count_events. simpl. lia. Qed.

Lemma tidy_weaken n m evs : n <= m -> tidy n evs -> tidy m evs.
Proof. intros Hle [Hok Hn]. split; [done|lia]. Qed.

Lemma tidy_app n m evs evs' : tidy n evs -> tidy m evs' -> tidy (n + m) (evs ++ evs').
Proof.
intros [Hok Hn] [Hok' Hm]. split.
- by rewrite forallb_app, Hok, Hok'.
- rewrite count_events_app. lia.
Qed.

Lemma tidy_reint_trace st manifest : tidy 1 (reint_trace st manifest).
Proof. split; [reflexivity|]. unfold count_events. simpl. lia. Qed.

Lemma log_getPlugins options st :
exists evs, env_log (getPlugins options st).2 = env_log st ++ evs /\ tidy 0 evs.
Proof.
destruct (cache_has "plugins.enabled" (this_cache st)) eqn:Hhas.
- apply cache_has_get in Hhas as [v Hv]. rewrite (getPlugins_hit _ _ _ Hv).
  exists []. split; [by rewrite app_nil_r|apply tidy_nil].
- rewrite (getPlugins_miss _ _ Hhas). simpl. eexists. split; [reflexivity|].
  split; [reflexivity|]. unfold count_events. simpl. lia.
Qed.

Lemma log_getManifest st :
exists evs, env_log (getManifest st).2 = env_log st ++ evs /\ tidy 0 evs.
Proof.
destruct (cache_has "manifest" (this_cache st)) eqn:Hhas.
- apply cache_has_get in Hhas as [v Hv]. rewrite (getManifest_hit _ _ Hv).
  exists []. split; [destruct st; simpl; by rewrite app_nil_r|apply tidy_nil].
- rewrite (getManifest_miss _ Hhas). simpl. eexists. split; [reflexivity|].
  split; [reflexivity|]. unfold count_events. simpl. lia.
Qed.

Lemma log_getHooks st :
exists evs, env_log (getHooks st).2 = env_log st ++ evs /\ tidy 0 evs.
Proof.
destruct (cache_has "hooks" (this_cache st)) eqn:Hhas.
- apply cache_has_get in Hhas as [v Hv]. rewrite (getHooks_hit _ _ Hv).
  exists []. split; [by rewrite app_nil_r|apply tidy_nil].
- rewrite (getHooks_miss _ Hhas). simpl. eexists. split; [reflexivity|].
  split; [reflexivity|]. unfold count_events. simpl. lia.
Qed.

Lemma log_getComponentInstance component ctor opts st :
exists evs,
  env_log (getComponentInstance component ctor opts st).2 = env_log st ++ evs /\
  tidy 0 evs.
Proof.
destruct (getComponentInstance_effects component ctor opts st)
  as (_ & evs & Hlog & Hevs).
exists evs. split; [exact Hlog|].
destruct Hevs as [->|[i ->]]; [apply tidy_nil|].
split; [reflexivity|]. unfold count_events. simpl. lia.
Qed.

Lemma log_reint st :
exists evs, env_log (_reint st) = env_log st ++ evs /\ tidy 1 evs.
Proof. eexists. split; [apply _reint_log|apply tidy_reint_trace]. Qed.

Lemma log_call c st :
exists evs,
  env_log (run_call c st) = env_log st ++ evs /\
  tidy (if is_read c then 0 else 1) evs.
Proof.
destruct c; simpl.
- unfold addPlugin.
  destruct (log_getComponentInstance "core.plugin-installer" None no_opts st)
    as (evs & Hlog & Hevs).
  destruct (getComponentInstance _ _ _ st) as [[e|installer] st1]; simpl in *.
  { exists evs. split; [done|]. apply (tidy_weaken 0); [lia|done]. }
  destruct (Plugin_fetch _ _ _ _ _) as [w [e|plugin]]; simpl.
  + eexists. split.
    * destruct st1. simpl in *. rewrite Hlog, <- app_assoc. reflexivity.
    * apply (tidy_app 0 1); [done|]. split; [reflexivity|].
      unfold count_events. simpl. lia.
  + destruct (log_reint (log_event
                           (EvFetch name
                              match dest with
                              | Some d => Some d
                              | None => Config_get (this_config st)
                                          "plugin.global-install-dir"
                              end
                              (Config_get (this_config st) "core.release-channel")
                              installer)
                           (with_world w st1))) as (evs' & Hlog' & Hevs').
    eexists. split.
    * rewrite Hlog'. destruct st1. simpl in *. rewrite Hlog, <- !app_assoc.
      reflexivity.
    * apply (tidy_app 0 1); [done|]. apply (tidy_app 0 1 [_]); [|done].
      split; [reflexivity|]. unfold count_events. simpl. lia.
- unfold getComponent, get_component.
  exists []. split; [|apply tidy_nil]. rewrite app_nil_r.
  destruct (scope_lookup _ _ _); [done|]. destruct (Config_get _ _); [|done].
  by destruct st.
- apply log_getComponentInstance.
- apply log_getHooks.
- apply log_getManifest.
- exists []. split; [by rewrite app_nil_r|apply tidy_nil].
- apply log_getPlugins.
- exists []. split; [by rewrite app_nil_r|apply tidy_nil].
- apply log_reint.
- unfold removePlugin. destruct (getPlugin name st) as [plugin|].
  2:{ exists []. split; [by rewrite app_nil_r|apply tidy_nil]. }
  destruct (String.eqb _ _).
  { exists []. split; [by rewrite app_nil_r|apply tidy_nil]. }
  simpl.
  destruct (log_reint (log_event (EvRemove plugin)
                         (with_world (Plugin_remove (env_world st) plugin) st)))
    as (evs' & Hlog' & Hevs').
  eexists. split.
  + rewrite Hlog'. destruct st. simpl. rewrite <- app_assoc. reflexivity.
  + apply (tidy_app 0 1 [_]); [|done].
    split; [reflexivity|]. unfold count_events. simpl. lia.
- eexists. split; [by destruct st|].
  split; [reflexivity|]. unfold count_events. simpl. lia.
- exists []. split; [destruct st; simpl; by rewrite app_nil_r|apply tidy_nil].
Qed.
End Logs.

(** X12. Whatever calls are made, the log only grows; the cache is written
    under ['plugins.disabled'], ['plugins.enabled'], ['plugins.invalid'],
    ['manifest'] and ['hooks'] and under no other key; and the cache is
    flushed at most once per call of [addPlugin], [removePlugin] or [reinit],
    never by another call. *)
Theorem calls_log_discipline {E : Externals} (cs : list call) : forall st : state E,
  exists evs,
    env_log (run_calls cs st) = env_log st ++ evs /\
    forallb event_ok evs = true /\
    count_events is_flush evs <= length (filter (fun c => is_read c = false) cs).
Proof.
  induction cs as [|c cs IH]; intros st.
  - exists []. split; [by rewrite app_nil_r|]. split; [done|].
    unfold count_events. simpl. lia.
  - simpl. destruct (log_call c st) as (evs & Hlog & Hok & Hflush).
    destruct (IH (run_call c st)) as (evs' & Hlog' & Hok' & Hflush').
    exists (evs ++ evs'). split; [by rewrite Hlog', Hlog, <- app_assoc|].
    split; [by rewrite forallb_app, Hok, Hok'|].
    rewrite count_events_app, filter_cons.
    destruct (is_read c); simpl in *; try case_decide; simpl; try done; lia.
Qed.

(** ** The registry *)




(** X14. With the cache scope left out, [getComponent] works on
    [_componentsCache]: what a first call returned for a component is what
    a second call returns, and the second call changes nothing. *)
Theorem getComponent_caches_class {E : Externals} (st : state E)
    component defaults defaults' held :
  (getComponent component None defaults st).1 = inr held ->
  getComponent component None defaults' (getComponent component None defaults st).2
  = (inr held, (getComponent component None defaults st).2).
Proof.
  unfold getComponent, get_component. simpl.
  destruct (scope_lookup (this_componentsCache st) component st) as [held'|] eqn:Hheld.
  - simpl. intros [= <-]. by rewrite Hheld.
  - destruct (Config_get _ component) as [entry|] eqn:Hentry; [|done].
    simpl. intros [= <-].
    replace (this_componentsCache
               (scope_store (this_componentsCache st) component (Class entry) st))
      with (this_componentsCache st) by (by destruct st).
    by rewrite scope_lookup_store.
Qed.

Lemma getComponent_caches_class_witness :
  let first := getComponent "x" None None Sim.caching in
  first.1 = inr (Class (JStr "a/x")) /\
  getComponent "x" None None first.2 = (inr (Class (JStr "a/x")), first.2).
Proof.
  intros first. split; [vm_compute; reflexivity|].
  apply (getComponent_caches_class Sim.caching "x" None None (Class (JStr "a/x"))).
  vm_compute. reflexivity.
Defined.

(** ** Reachable states *)

(** X15. In every reachable state the manifest in [this.manifest] is the one
    composed from [this.plugins]; a cache that retains what it is given
    holds [this.plugins] under ['plugins.enabled'] and a manifest of the same
    content under ['manifest']; what is cached under ['hooks'], if anything,
    is the empty list; and [this.hooks] is [undefined]. *)
Theorem reachable_cache_coherent {E : Externals} (st : state E) :
  reachable st ->
  live (this_manifest st) = build_manifest (this_plugins st) /\
  (retains (this_cache st) = true ->
   cache_get "plugins.enabled" (this_cache st) = Some (CPlugins (this_plugins st)) /\
   exists mo, cache_get "manifest" (this_cache st) = Some (CConfig mo) /\
              live mo = live (this_manifest st)) /\
  (forall v, cache_get "hooks" (this_cache st) = Some v -> v = CHooks []) /\
  this_hooks st = None.
Proof.
  intros Hreach. pose proof (reachable_inv _ Hreach) as [[Hlive Hcache] Hhooks].
  split; [exact Hlive|]. split; [|split; [exact Hhooks|by apply reachable_hooks]].
  intros Hr. destruct (Hcache Hr) as [Hps (mo & Hmo & Hmolive)].
  split; [exact Hps|]. exists mo. by rewrite Hlive.
Qed.

Lemma reachable_cache_coherent_witness :
  live (this_manifest (run_call (CallRemovePlugin "b") Sim.caching))
  = build_manifest (this_plugins (run_call (CallRemovePlugin "b") Sim.caching)).
Proof.
  destruct (reachable_cache_coherent (run_call (CallRemovePlugin "b") Sim.caching))
    as [Hlive _]; [|exact Hlive].
  apply reach_call, reach_construct, persisted_ok_empty.
Defined.

(** X16. From a reachable state, calls other than [addPlugin],
    [removePlugin] and [reinit] leave [this.plugins], [this.manifest], the
    configuration and what is installed as they are, and every cache entry
    but the one under ['hooks']. *)
Theorem reads_leave_derived_state {E : Externals} (st : state E) (cs : list call) :
  reachable st ->
  forallb is_read cs = true ->
  this_plugins (run_calls cs st) = this_plugins st /\
  this_manifest (run_calls cs st) = this_manifest st /\
  this_config (run_calls cs st) = this_config st /\
  env_world (run_calls cs st) = env_world st /\
  (forall key, key <> "hooks" ->
     cache_get key (this_cache (run_calls cs st)) = cache_get key (this_cache st)).
Proof.
  intros Hreach Hreads.
  destruct (frame_reads cs st (reachable_inv _ Hreach) Hreads)
    as (Hcfg&_&_&_&Hps&Hm&_&Hw&Hc).
  repeat split; try done.
  intros key Hkey. destruct Hc as [-> | ->]; [done|]. by apply cache_get_set_ne.
Qed.

Lemma reads_leave_derived_state_witness :
  let cs := [CallGetPlugins [("type", OptVal (Some (JStr "app")))];
             CallGetHooks; CallGetManifest; CallRunHook "e" JNull] in
  this_plugins (run_calls cs Sim.uncached) = this_plugins Sim.uncached /\
  this_manifest (run_calls cs Sim.uncached) = this_manifest Sim.uncached.
Proof.
  intros cs.
  destruct (reads_leave_derived_state Sim.uncached cs) as (Hps & Hm & _).
  - apply reach_construct, persisted_ok_empty.
  - reflexivity.
  - split; [exact Hps|exact Hm].
Defined.
